(** * llp-fastApi: the lunch-poll session service of [main.py]

    A shallow embedding of the request handlers of [main.py] over an explicit
    model of the four SQL tables, and the properties of the session life cycle
    (submission, progress accounting, closing with a random pick).

    Modelling conventions.
    - A table is the list of its rows in rowid order; a row inserted without
      an id receives [1 + max id] (SQLite's INTEGER PRIMARY KEY), is appended,
      and [fetch_one] yields the first matching row of that order.
    - Every [database.execute] commits on its own (no enclosing transaction),
      so a handler that raises keeps the writes it has already made: a handler
      is a function from the store to the store and either an exception or a
      reply.
    - Requests are handled one at a time; the store itself never fails.
    - Python integers are [Z]; [random.choice] takes its draw as an argument.
    - The driver binds an integer of a request as a signed 64-bit value and
      raises OverflowError for any other; the integers a table holds are
      64-bit values, written here as [Z] without the bound. *)

From Stdlib Require Import ZArith List String Bool Lia.
Import ListNotations.
Open Scope string_scope.
Open Scope list_scope.
Open Scope Z_scope.

Set Implicit Arguments.

(** ** Rows and tables *)

(** [users(id, name UNIQUE)] *)
Record UserRow := mkUser {
  user_id : Z;
  user_name : string
}.

(** [sessions(id, name, progress, expected_number_of_participants, owner_id,
    status, result)]; [result] is NULL until a close writes it. *)
Record SessionRow := mkSession {
  session_id : Z;
  session_name : string;
  progress : Z;
  expected_number_of_participants : Z;
  owner_id : Z;
  status : string;
  result : option string
}.

(** [restaurants(id, session_id, name)]; no handler ever fills [session_id]. *)
Record RestaurantRow := mkRestaurant {
  restaurant_id : Z;
  restaurant_session_id : option Z;
  restaurant_name : string
}.

(** [user_session_restaurants(id, user_id, session_id, restaurant_id)] *)
Record SubmissionRow := mkSubmission {
  usr_id : Z;
  usr_user_id : Z;
  usr_session_id : Z;
  usr_restaurant_id : Z
}.

Record Database := mkDatabase {
  sessions_table : list SessionRow;
  users_table : list UserRow;
  restaurants_table : list RestaurantRow;
  user_session_restaurants_table : list SubmissionRow
}.

(** The store right after [metadata.create_all]: four empty tables. *)
Definition empty_database : Database := mkDatabase [] [] [] [].

(** ** Exceptions and the handler monad *)

Inductive exn :=
| HTTPException (status_code : Z) (detail : string)
| IndexError
| TypeError
| OverflowError.

Definition M (A : Type) : Type := Database -> Database * (exn + A).

Definition ret {A} (a : A) : M A := fun db => (db, inr a).

Definition raise {A} (e : exn) : M A := fun db => (db, inl e).

Definition bind {A B} (m : M A) (k : A -> M B) : M B :=
  fun db =>
    match m db with
    | (db', inr a) => k a db'
    | (db', inl e) => (db', inl e)
    end.

Notation "x <- m ;; k" := (bind m (fun x => k))
  (at level 61, m at next level, right associativity).
Notation "m ;;; k" := (bind m (fun _ => k))
  (at level 61, right associativity).

(** ** Store primitives *)

(** The integers [sqlite3] can bind to a query: the signed 64-bit ones. *)
Definition int64 (k : Z) : bool := (- 2 ^ 63 <=? k) && (k <? 2 ^ 63).

(** Binding an integer of the request to a statement: OverflowError when it
    is not a 64-bit value. *)
Definition bind_int (k : Z) : M unit :=
  fun db => if int64 k then (db, inr tt) else (db, inl OverflowError).

(** The id SQLite gives to the next inserted row. *)
Definition next_rowid (ids : list Z) : Z := 1 + fold_right Z.max 0 ids.

(** [database.fetch_one(table.select().where(p))] *)
Definition fetch_one {R} (table : Database -> list R) (p : R -> bool)
  : M (option R) :=
  fun db => (db, inr (find p (table db))).

(** [database.fetch_all(table.select().where(p))] *)
Definition fetch_all {R} (table : Database -> list R) (p : R -> bool)
  : M (list R) :=
  fun db => (db, inr (filter p (table db))).

Definition set_sessions (l : list SessionRow) (db : Database) : Database :=
  mkDatabase l (users_table db) (restaurants_table db)
             (user_session_restaurants_table db).

Definition set_users (l : list UserRow) (db : Database) : Database :=
  mkDatabase (sessions_table db) l (restaurants_table db)
             (user_session_restaurants_table db).

Definition set_restaurants (l : list RestaurantRow) (db : Database) : Database :=
  mkDatabase (sessions_table db) (users_table db) l
             (user_session_restaurants_table db).

Definition set_submissions (l : list SubmissionRow) (db : Database) : Database :=
  mkDatabase (sessions_table db) (users_table db) (restaurants_table db) l.

(** [users_table.insert().values(name=...)], returning the new row id. *)
Definition insert_user (name : string) : M Z :=
  fun db =>
    let i := next_rowid (map user_id (users_table db)) in
    (set_users (users_table db ++ [mkUser i name]) db, inr i).

(** [sessions_table.insert().values(name, owner_id,
    expected_number_of_participants, status, progress)]; [result] stays NULL. *)
Definition insert_session (name : string) (owner : Z) (participants : Z)
    (st : string) (prog : Z) : M Z :=
  fun db =>
    let i := next_rowid (map session_id (sessions_table db)) in
    (set_sessions
       (sessions_table db ++ [mkSession i name prog participants owner st None])
       db, inr i).

(** Whether a session id can be bound.  A session stored under the id shows
    it to be a 64-bit value, whatever its [Z] here. *)
Definition session_id_fits (db : Database) (sid : Z) : bool :=
  int64 sid || existsb (fun s => session_id s =? sid) (sessions_table db).

(** Binding the session id of a request to the first statement that uses
    it. *)
Definition bind_session_id (sid : Z) : M unit :=
  fun db => if session_id_fits db sid then (db, inr tt)
            else (db, inl OverflowError).

(** [restaurants_table.insert().values(name=...)] *)
Definition insert_restaurant (name : string) : M Z :=
  fun db =>
    let i := next_rowid (map restaurant_id (restaurants_table db)) in
    (set_restaurants (restaurants_table db ++ [mkRestaurant i None name]) db,
     inr i).

(** [user_session_restaurants_table.insert().values(user_id, session_id,
    restaurant_id)] *)
Definition insert_submission (uid sid rid : Z) : M Z :=
  fun db =>
    let i := next_rowid (map usr_id (user_session_restaurants_table db)) in
    (set_submissions
       (user_session_restaurants_table db ++ [mkSubmission i uid sid rid]) db,
     inr i).

(** [sessions_table.update().where(p).values(...)]: every matching row is
    rewritten by [f]. *)
Definition update_sessions (p : SessionRow -> bool)
    (f : SessionRow -> SessionRow) : M unit :=
  fun db =>
    (set_sessions (map (fun s => if p s then f s else s) (sessions_table db)) db,
     inr tt).

Definition with_status (st : string) (s : SessionRow) : SessionRow :=
  mkSession (session_id s) (session_name s) (progress s)
            (expected_number_of_participants s) (owner_id s) st (result s).

Definition with_result (r : string) (s : SessionRow) : SessionRow :=
  mkSession (session_id s) (session_name s) (progress s)
            (expected_number_of_participants s) (owner_id s) (status s) (Some r).

Definition with_progress (p : Z) (s : SessionRow) : SessionRow :=
  mkSession (session_id s) (session_name s) p
            (expected_number_of_participants s) (owner_id s) (status s)
            (result s).

(** ** Python built-ins used by the handlers *)

(** [random.choice(seq)]: IndexError on an empty sequence, otherwise the
    element at the drawn index; the draw [rnd] is reduced below [len(seq)]. *)
Definition random_choice {A} (rnd : nat) (seq : list A) : M A :=
  match seq with
  | [] => raise IndexError
  | x :: _ => ret (nth (Nat.modulo rnd (List.length seq)) seq x)
  end.

(** [row["column"]] on the outcome of a [fetch_one]: subscripting [None]
    raises TypeError. *)
Definition subscript {R A} (row : option R) (column : R -> A) : M A :=
  match row with
  | Some r => ret (column r)
  | None => raise TypeError
  end.

(** [round(a / b)] for [0 < b]: the nearest integer, a tie going to the even
    neighbour.  Python divides in double precision; the quotient of two
    integers is correctly rounded there, so this exact form agrees with it as
    long as [a] stays below [2^52]; here [a] is a hundred times a row count. *)
Definition py_round_div (a b : Z) : Z :=
  let q := a / b in
  let r := a mod b in
  if 2 * r <? b then q
  else if b <? 2 * r then q + 1
  else if Z.even q then q else q + 1.

(** ** Request bodies and replies *)

Record LoginRequest := mkLoginRequest {
  username : string;
  password : string
}.

Record LoginReply := mkLoginReply {
  login_user_id : Z;
  login_username : string
}.

Record CreateSessionRequest := mkCreateSessionRequest {
  name : string;
  owner_name : string;
  session_participants : Z
}.

Record CreateSessionReply := mkCreateSessionReply {
  created_session_id : Z;
  created_name : string;
  created_owner_id : Z
}.

Record EndSessionReply := mkEndSessionReply {
  end_message : string;
  end_result : string
}.

Record CheckSubmissionReply := mkCheckSubmissionReply {
  submitted : bool;
  restaurantName : option string
}.

Record RestaurantSubmission := mkRestaurantSubmission {
  sub_session_id : Z;
  sub_restaurant_name : string;
  sub_user_name : string
}.

Record SubmitReply := mkSubmitReply {
  submit_message : string
}.

(** ** The handlers *)

(** [POST /login/] *)
Definition login (login_request : LoginRequest) : M LoginReply :=
  user <- fetch_one users_table
            (fun u => (user_name u =? username login_request)%string) ;;
  match user with
  | None =>
      last_record_id <- insert_user (username login_request) ;;
      ret (mkLoginReply last_record_id (username login_request))
  | Some u => ret (mkLoginReply (user_id u) (user_name u))
  end.

(** [POST /create-session/] *)
Definition create_session (session_request : CreateSessionRequest)
  : M CreateSessionReply :=
  user <- fetch_one users_table
            (fun u => (user_name u =? owner_name session_request)%string) ;;
  owner <- match user with
           | None => insert_user (owner_name session_request)
           | Some u => ret (user_id u)
           end ;;
  bind_int (session_participants session_request) ;;;
  last_record_id <- insert_session (name session_request) owner
                      (session_participants session_request) "open" 0 ;;
  ret (mkCreateSessionReply last_record_id (name session_request) owner).

(** [PUT /session/{session_id}/end] *)
Definition end_session (rnd : nat) (sid : Z) : M EndSessionReply :=
  bind_session_id sid ;;;
  session <- fetch_one sessions_table (fun s => (session_id s =? sid)) ;;
  match session with
  | None => raise (HTTPException 404 "Session not found")
  | Some _ =>
      update_sessions (fun s => (session_id s =? sid)) (with_status "closed") ;;;
      submissions <- fetch_all user_session_restaurants_table
                       (fun x => (usr_session_id x =? sid)) ;;
      random_result <- random_choice rnd submissions ;;
      restaurant_selected <-
        fetch_one restaurants_table
          (fun r => (restaurant_id r =? usr_restaurant_id random_result)) ;;
      selected_name <- subscript restaurant_selected restaurant_name ;;
      update_sessions (fun s => (session_id s =? sid))
        (with_result selected_name) ;;;
      ret (mkEndSessionReply "Session ended successfully" selected_name)
  end.

(** [GET /check-submission/{session_id}/{username}] *)
Definition check_submission (sid : Z) (uname : string)
  : M CheckSubmissionReply :=
  user <- fetch_one users_table (fun u => (user_name u =? uname)%string) ;;
  match user with
  | None => raise (HTTPException 404 "User not found")
  | Some u =>
      bind_session_id sid ;;;
      submission <-
        fetch_one user_session_restaurants_table
          (fun x => (usr_session_id x =? sid) && (usr_user_id x =? user_id u)) ;;
      match submission with
      | Some x =>
          restaurant <-
            fetch_one restaurants_table
              (fun r => (restaurant_id r =? usr_restaurant_id x)) ;;
          rname <- subscript restaurant restaurant_name ;;
          ret (mkCheckSubmissionReply true (Some rname))
      | None => ret (mkCheckSubmissionReply false None)
      end
  end.

(** [POST /submit-restaurant/] *)
Definition submit_restaurant (submission : RestaurantSubmission)
  : M SubmitReply :=
  bind_session_id (sub_session_id submission) ;;;
  session <- fetch_one sessions_table
               (fun s => (session_id s =? sub_session_id submission)) ;;
  match session with
  | None => raise (HTTPException 404 "Session not found")
  | Some sess =>
      user <- fetch_one users_table
                (fun u => (user_name u =? sub_user_name submission)%string) ;;
      match user with
      | None => raise (HTTPException 404 "User not found")
      | Some u =>
          restaurant <-
            fetch_one restaurants_table
              (fun r => (restaurant_name r =? sub_restaurant_name submission)%string) ;;
          rid <- match restaurant with
                 | None => insert_restaurant (sub_restaurant_name submission)
                 | Some r => ret (restaurant_id r)
                 end ;;
          insert_submission (user_id u) (sub_session_id submission) rid ;;;
          submissions <-
            fetch_all user_session_restaurants_table
              (fun x => (usr_session_id x =? sub_session_id submission)) ;;
          let participants := expected_number_of_participants sess in
          let progress_value :=
            if (participants >? 0)
            then py_round_div (Z.of_nat (List.length submissions) * 100) participants
            else 0 in
          update_sessions
            (fun s => (session_id s =? sub_session_id submission))
            (with_progress progress_value) ;;;
          ret (mkSubmitReply "Restaurant submitted successfully")
      end
  end.

(** ** Request sequences and reachable stores *)

(** The requests that can write to the store.  The read-only routes
    ([check_submission], the listings) leave every store unchanged. *)
Inductive request :=
| Login (rq : LoginRequest)
| CreateSession (rq : CreateSessionRequest)
| EndSession (rnd : nat) (sid : Z)
| SubmitRestaurant (rq : RestaurantSubmission).

(** The store a request leaves behind, whether it replied or raised. *)
Definition handle (rq : request) (db : Database) : Database :=
  match rq with
  | Login r => fst (login r db)
  | CreateSession r => fst (create_session r db)
  | EndSession rnd sid => fst (end_session rnd sid db)
  | SubmitRestaurant r => fst (submit_restaurant r db)
  end.

Definition run (rqs : list request) (db : Database) : Database :=
  fold_left (fun d rq => handle rq d) rqs db.

Inductive reachable : Database -> Prop :=
| reachable_empty : reachable empty_database
| reachable_handle db rq : reachable db -> reachable (handle rq db).

(** ** Views of a store used in the statements *)

Definition get_session (db : Database) (sid : Z) : option SessionRow :=
  find (fun s => session_id s =? sid) (sessions_table db).

Definition get_user (db : Database) (uname : string) : option UserRow :=
  find (fun u => (user_name u =? uname)%string) (users_table db).

Definition get_restaurant (db : Database) (rid : Z) : option RestaurantRow :=
  find (fun r => restaurant_id r =? rid) (restaurants_table db).

Definition session_submissions (db : Database) (sid : Z) : list SubmissionRow :=
  filter (fun x => usr_session_id x =? sid) (user_session_restaurants_table db).

Definition user_submissions (db : Database) (sid uid : Z) : list SubmissionRow :=
  filter (fun x => (usr_session_id x =? sid) && (usr_user_id x =? uid))
         (user_session_restaurants_table db).

Definition get_restaurant_by_name (db : Database) (rname : string)
  : option RestaurantRow :=
  find (fun r => (restaurant_name r =? rname)%string) (restaurants_table db).

(** The store after the three writes of the handlers to a session row. *)
Definition mark_closed (sid : Z) (db : Database) : Database :=
  fst (update_sessions (fun s => session_id s =? sid) (with_status "closed") db).

Definition store_result (sid : Z) (r : string) (db : Database) : Database :=
  fst (update_sessions (fun s => session_id s =? sid) (with_result r) db).

Definition store_progress (sid : Z) (p : Z) (db : Database) : Database :=
  fst (update_sessions (fun s => session_id s =? sid) (with_progress p) db).

(** The store and the restaurant id after the submit handler has looked the
    restaurant name up and, when it is new, inserted it. *)
Definition with_restaurant (rname : string) (db : Database) : Database * Z :=
  match get_restaurant_by_name db rname with
  | Some r => (db, restaurant_id r)
  | None => (fst (insert_restaurant rname db),
             next_rowid (map restaurant_id (restaurants_table db)))
  end.

(** The store after the submission row has been inserted. *)
Definition recorded (uid sid rid : Z) (db : Database) : Database :=
  fst (insert_submission uid sid rid db).

(** The element [random.choice] returns from a non-empty list. *)
Definition drawn {A} (rnd : nat) (x : A) (l : list A) : A :=
  nth (Nat.modulo rnd (List.length (x :: l))) (x :: l) x.

(** The progress the submit handler computes from a submission count. *)
Definition progress_of (count : nat) (participants : Z) : Z :=
  if participants >? 0
  then py_round_div (Z.of_nat count * 100) participants
  else 0.

(** ** Sample stores

    The scenario of the service's description: alice opens the session
    "Dinner" for two participants, bob logs in, both submit, the owner closes. *)

Definition dinner : request :=
  CreateSession (mkCreateSessionRequest "Dinner" "alice" 2).

Definition store_open : Database := run [dinner] empty_database.

Definition store_voted : Database :=
  run [Login (mkLoginRequest "bob" "secret");
       SubmitRestaurant (mkRestaurantSubmission 1 "Pizza Place" "alice");
       SubmitRestaurant (mkRestaurantSubmission 1 "Sushi Bar" "bob")]
      store_open.

Definition store_closed : Database := run [EndSession 0 1] store_voted.

(** A session for one participant to which that participant submits twice. *)
Definition store_twice : Database :=
  run [CreateSession (mkCreateSessionRequest "Solo" "alice" 1);
       SubmitRestaurant (mkRestaurantSubmission 1 "Pizza Place" "alice");
       SubmitRestaurant (mkRestaurantSubmission 1 "Sushi Bar" "alice")]
      empty_database.

(** ** Growth of the store

    No handler deletes or rewrites a participant, a restaurant or a
    submission: from one store to a later one these tables only gain rows at
    the end. *)
Definition extends (db db' : Database) : Prop :=
  (exists us, users_table db' = users_table db ++ us)
  /\ (exists rs, restaurants_table db' = restaurants_table db ++ rs)
  /\ (exists xs, user_session_restaurants_table db'
                 = user_session_restaurants_table db ++ xs).

(** ** Well-formed stores

    What every store built by the handlers satisfies: primary keys are
    unique, a submission refers to rows that exist, the stored progress is
    the one computed from the current submission count, and a result is
    stored only for a session that has a submission. *)
Record well_formed (db : Database) : Prop := mkWellFormed {
  wf_session_ids : NoDup (map session_id (sessions_table db));
  wf_restaurant_ids : NoDup (map restaurant_id (restaurants_table db));
  wf_submission_session :
    forall x, In x (user_session_restaurants_table db) ->
              In (usr_session_id x) (map session_id (sessions_table db));
  wf_submission_restaurant :
    forall x, In x (user_session_restaurants_table db) ->
              In (usr_restaurant_id x) (map restaurant_id (restaurants_table db));
  wf_progress :
    forall s, In s (sessions_table db) ->
              progress s =
              progress_of (List.length (session_submissions db (session_id s)))
                          (expected_number_of_participants s);
  wf_result :
    forall s, In s (sessions_table db) -> result s <> None ->
              session_submissions db (session_id s) <> []
}.

(** ** The read-only routes *)

(** [a.join(b, on)]: the pairs of a row of [a] and a row of [b] that satisfy
    [on], enumerated row by row of [a]. *)
Definition join {A B} (a : list A) (b : list B) (on : A -> B -> bool)
  : list (A * B) :=
  flat_map (fun x => map (pair x) (filter (on x) b)) a.

(** [user_session_restaurants JOIN users ON user_id = users.id
    JOIN restaurants ON restaurant_id = restaurants.id] *)
Definition submissions_with_names (db : Database)
  : list (SubmissionRow * UserRow * RestaurantRow) :=
  join (join (user_session_restaurants_table db) (users_table db)
             (fun x u => usr_user_id x =? user_id u))
       (restaurants_table db)
       (fun xu r => usr_restaurant_id (fst xu) =? restaurant_id r).

(** [sessions JOIN users ON sessions.owner_id = users.id] *)
Definition sessions_with_owner (db : Database) : list (SessionRow * UserRow) :=
  join (sessions_table db) (users_table db)
       (fun s u => owner_id s =? user_id u).

(** An entry [{"user": ..., "restaurant": ...}] of the submission listing. *)
Record SubmissionEntry := mkSubmissionEntry {
  entry_user : string;
  entry_restaurant : string
}.

(** The session columns together with [owner_name]. *)
Record SessionWithOwner := mkSessionWithOwner {
  owned_session : SessionRow;
  owned_owner_name : string
}.

Module Api.

(** [GET /sessions/] *)
Definition get_sessions : M (list SessionRow) :=
  fetch_all sessions_table (fun _ => true).

(** [GET /session/{session_id}/submissions] *)
Definition get_session_submissions (sid : Z) : M (list SubmissionEntry) :=
  bind_session_id sid ;;;
  data <- fetch_all submissions_with_names
            (fun row => usr_session_id (fst (fst row)) =? sid) ;;
  ret (map (fun row => mkSubmissionEntry (user_name (snd (fst row)))
                                         (restaurant_name (snd row)))
           data).

(** [GET /session/{session_id}/owner/] *)
Definition get_session_owner (sid : Z) : M SessionWithOwner :=
  bind_session_id sid ;;;
  session_with_owner <- fetch_one sessions_with_owner
                          (fun row => session_id (fst row) =? sid) ;;
  match session_with_owner with
  | None => raise (HTTPException 404 "Session not found")
  | Some row => ret (mkSessionWithOwner (fst row) (user_name (snd row)))
  end.

(** [GET /user/{user_name}] *)
Definition get_user (uname : string) : M UserRow :=
  user <- fetch_one users_table (fun u => (user_name u =? uname)%string) ;;
  match user with
  | None => raise (HTTPException 404 "User not found")
  | Some u => ret u
  end.

End Api.

(** ** Further views and the directory invariant *)

Definition get_user_by_id (db : Database) (uid : Z) : option UserRow :=
  find (fun u => user_id u =? uid) (users_table db).

(** The listing entry a submission row stands for. *)
Definition entry_of (db : Database) (x : SubmissionRow)
  : option SubmissionEntry :=
  match get_user_by_id db (usr_user_id x),
        get_restaurant db (usr_restaurant_id x) with
  | Some u, Some r => Some (mkSubmissionEntry (user_name u) (restaurant_name r))
  | _, _ => None
  end.

(** The store and the participant id after [login] or [create_session] has
    looked the name up and, when it is new, inserted it. *)
Definition with_user (uname : string) (db : Database) : Database * Z :=
  match get_user db uname with
  | Some u => (db, user_id u)
  | None => (fst (insert_user uname db),
             next_rowid (map user_id (users_table db)))
  end.

(** The store after the session row has been inserted. *)
Definition opened (rq : CreateSessionRequest) (owner : Z) (db : Database)
  : Database :=
  fst (insert_session (name rq) owner (session_participants rq) "open" 0 db).

(** A stored result names the restaurant of a submission of the session. *)
Definition result_submitted (db : Database) (s : SessionRow) : Prop :=
  forall n, result s = Some n ->
    status s = "closed"
    /\ exists x r,
         In x (session_submissions db (session_id s))
         /\ get_restaurant db (usr_restaurant_id x) = Some r
         /\ restaurant_name r = n.

(** What every store built by the handlers satisfies besides
    [well_formed]: participants and restaurants are unique by name,
    participants by id, owners and submitters exist, a status is open or
    closed, and a result belongs to a closed session and was submitted. *)
Record consistent (db : Database) : Prop := mkConsistent {
  cs_user_ids : NoDup (map user_id (users_table db));
  cs_user_names : NoDup (map user_name (users_table db));
  cs_restaurant_names : NoDup (map restaurant_name (restaurants_table db));
  cs_owner :
    forall s, In s (sessions_table db) ->
              In (owner_id s) (map user_id (users_table db));
  cs_submitter :
    forall x, In x (user_session_restaurants_table db) ->
              In (usr_user_id x) (map user_id (users_table db));
  cs_status :
    forall s, In s (sessions_table db) ->
              status s = "open" \/ status s = "closed";
  cs_result :
    forall s, In s (sessions_table db) -> result_submitted db s
}.

(** Unfolds the monadic plumbing of a handler. *)
Ltac step_handler :=
  unfold bind, fetch_one, fetch_all, ret, raise, subscript, random_choice;
  cbn [fst snd].

(** The same for a handler whose first statement binds a session id that
    fits. *)
Ltac step_bound H :=
  unfold bind, bind_session_id; rewrite H; cbn [fst snd];
  unfold fetch_one, fetch_all, ret, raise, subscript, random_choice;
  cbn [fst snd].

(** * Lemmas *)

(** ** Row ids *)

Section RowIds.

Lemma fold_max_upper (ids : list Z) (i : Z) :
  In i ids -> i <= fold_right Z.max 0 ids.
Proof.
  induction ids as [|j ids IH]; simpl; [tauto|].
  intros [->|Hin]; [lia|]. specialize (IH Hin). lia.
Qed.

Lemma next_rowid_above (ids : list Z) (i : Z) :
  In i ids -> i < next_rowid ids.
Proof. intros Hin. apply fold_max_upper in Hin. unfold next_rowid. lia. Qed.

Lemma next_rowid_fresh (ids : list Z) : ~ In (next_rowid ids) ids.
Proof. intros Hin. apply next_rowid_above in Hin. lia. Qed.

Lemma NoDup_snoc_fresh (ids : list Z) :
  NoDup ids -> NoDup (ids ++ [next_rowid ids]).
Proof.
  intros Hnd. apply NoDup_app; [assumption|repeat constructor; simpl; tauto|].
  intros x Hx [<-|[]]. exact (next_rowid_fresh _ Hx).
Qed.

End RowIds.

(** ** Lookups by key *)

Section Lookups.

Variables (R : Type) (key : R -> Z).

Lemma find_key_in (l : list R) (k : Z) (r : R) :
  find (fun x => key x =? k) l = Some r -> In r l /\ key r = k.
Proof.
  intros Hf. apply find_some in Hf. destruct Hf as [Hin Hk].
  split; [assumption|]. now apply Z.eqb_eq.
Qed.

Lemma find_key_none (l : list R) (k : Z) :
  find (fun x => key x =? k) l = None <-> ~ In k (map key l).
Proof.
  split.
  - intros Hf Hin. apply in_map_iff in Hin. destruct Hin as [x [Hk Hin]].
    pose proof (find_none _ _ Hf x Hin) as Hx. simpl in Hx.
    apply Z.eqb_neq in Hx. congruence.
  - intros Hnot. destruct (find _ l) as [r|] eqn:Hf; [|reflexivity].
    apply find_key_in in Hf. destruct Hf as [Hin <-].
    exfalso. apply Hnot. now apply in_map.
Qed.

Lemma find_key_exists (l : list R) (k : Z) :
  In k (map key l) -> exists r, find (fun x => key x =? k) l = Some r.
Proof.
  intros Hin. destruct (find _ l) as [r|] eqn:Hf; [now exists r|].
  apply find_key_none in Hf. contradiction.
Qed.

(** With unique keys, the row found under a row's own key is that row. *)
Lemma find_key_unique (l : list R) (r : R) :
  NoDup (map key l) -> In r l -> find (fun x => key x =? key r) l = Some r.
Proof.
  induction l as [|a l IH]; simpl; [tauto|].
  intros Hnd Hin. inversion Hnd as [|? ? Hnotin Hnd']; subst.
  destruct Hin as [->|Hin].
  - now rewrite Z.eqb_refl.
  - destruct (key a =? key r) eqn:Hk; [|now apply IH].
    apply Z.eqb_eq in Hk. exfalso. apply Hnotin. rewrite Hk. now apply in_map.
Qed.

Lemma find_app_none {A} (p : A -> bool) (l1 l2 : list A) :
  find p l1 = None -> find p (l1 ++ l2) = find p l2.
Proof.
  induction l1 as [|a l1 IH]; simpl; [reflexivity|].
  destruct (p a); [discriminate|exact IH].
Qed.

Lemma find_app_some {A} (p : A -> bool) (l1 l2 : list A) (a : A) :
  find p l1 = Some a -> find p (l1 ++ l2) = Some a.
Proof.
  induction l1 as [|b l1 IH]; simpl; [discriminate|].
  destruct (p b); [trivial|exact IH].
Qed.

Lemma filter_nil_find {A} (p : A -> bool) (l : list A) :
  filter p l = [] -> find p l = None.
Proof.
  induction l as [|a l IH]; simpl; [reflexivity|].
  destruct (p a); [discriminate|exact IH].
Qed.

End Lookups.

(** ** Session updates keep the keys *)

Section SessionUpdates.

Variables (p : SessionRow -> bool) (f : SessionRow -> SessionRow).
Hypothesis f_id : forall s, session_id (f s) = session_id s.

Let upd (s : SessionRow) : SessionRow := if p s then f s else s.

Lemma upd_id (s : SessionRow) : session_id (upd s) = session_id s.
Proof. unfold upd. destruct (p s); [apply f_id|reflexivity]. Qed.

Lemma find_map_upd (l : list SessionRow) (sid : Z) :
  find (fun s => session_id s =? sid) (map (fun s => if p s then f s else s) l)
  = option_map (fun s => if p s then f s else s)
      (find (fun s => session_id s =? sid) l).
Proof.
  induction l as [|a l IH]; simpl; [reflexivity|].
  fold (upd a). rewrite upd_id.
  destruct (session_id a =? sid); [reflexivity|exact IH].
Qed.

End SessionUpdates.

(** ** Binding a session id *)

Section Binding.

Variables (db : Database) (sid : Z).

Lemma session_id_fits_found (s : SessionRow) :
  get_session db sid = Some s -> session_id_fits db sid = true.
Proof.
  intros Hs. unfold session_id_fits. apply orb_true_iff. right.
  apply existsb_exists. exists s. apply find_some in Hs. exact Hs.
Qed.

Lemma session_id_fits_none :
  get_session db sid = None -> session_id_fits db sid = int64 sid.
Proof.
  intros Hs. unfold session_id_fits.
  destruct (existsb _ (sessions_table db)) eqn:He; [|apply orb_false_r].
  apply existsb_exists in He. destruct He as [s [Hin Hk]].
  pose proof (find_none _ _ Hs s Hin) as Hn. cbn in Hn. congruence.
Qed.

Lemma session_id_fits_int64 : int64 sid = true -> session_id_fits db sid = true.
Proof. intros H. unfold session_id_fits. now rewrite H. Qed.

Lemma bind_session_id_fits {A} (k : M A) :
  session_id_fits db sid = true ->
  (bind_session_id sid ;;; k) db = k db.
Proof. intros H. unfold bind, bind_session_id. now rewrite H. Qed.

Lemma bind_session_id_overflow {A} (k : M A) :
  session_id_fits db sid = false ->
  (bind_session_id sid ;;; k) db = (db, inl OverflowError).
Proof. intros H. unfold bind, bind_session_id. now rewrite H. Qed.

End Binding.

(** ** What each handler computes *)

Section EndSession.

Variables (rnd : nat) (sid : Z) (db : Database).

Lemma end_session_unknown :
  get_session db sid = None ->
  end_session rnd sid db
  = (db, inl (if int64 sid then HTTPException 404 "Session not found"
              else OverflowError)).
Proof.
  intros Hs. unfold end_session.
  pose proof (session_id_fits_none _ _ Hs) as Hfit.
  destruct (int64 sid).
  - rewrite bind_session_id_fits by exact Hfit. revert Hs.
    unfold get_session. step_handler. intros ->. reflexivity.
  - now rewrite bind_session_id_overflow.
Qed.

Lemma end_session_empty (s : SessionRow) :
  get_session db sid = Some s ->
  session_submissions db sid = [] ->
  end_session rnd sid db = (mark_closed sid db, inl IndexError).
Proof.
  intros Hs. unfold end_session.
  rewrite bind_session_id_fits by exact (session_id_fits_found _ _ Hs).
  revert Hs.
  unfold get_session, session_submissions. step_handler.
  intros -> Hnil. cbn [update_sessions set_sessions user_session_restaurants_table].
  rewrite Hnil. reflexivity.
Qed.

Lemma end_session_drawn (s : SessionRow) (x : SubmissionRow)
    (l : list SubmissionRow) (r : RestaurantRow) :
  get_session db sid = Some s ->
  session_submissions db sid = x :: l ->
  get_restaurant db (usr_restaurant_id (drawn rnd x l)) = Some r ->
  end_session rnd sid db
  = (store_result sid (restaurant_name r) (mark_closed sid db),
     inr (mkEndSessionReply "Session ended successfully" (restaurant_name r))).
Proof.
  intros Hs. unfold end_session.
  rewrite bind_session_id_fits by exact (session_id_fits_found _ _ Hs).
  revert Hs.
  unfold get_session, session_submissions, get_restaurant.
  step_handler. intros -> Hsub Hr.
  cbn [update_sessions set_sessions user_session_restaurants_table].
  rewrite Hsub. unfold ret. cbn [set_sessions restaurants_table].
  unfold drawn in Hr. rewrite Hr. reflexivity.
Qed.

Lemma end_session_dangling (s : SessionRow) (x : SubmissionRow)
    (l : list SubmissionRow) :
  get_session db sid = Some s ->
  session_submissions db sid = x :: l ->
  get_restaurant db (usr_restaurant_id (drawn rnd x l)) = None ->
  end_session rnd sid db = (mark_closed sid db, inl TypeError).
Proof.
  intros Hs. unfold end_session.
  rewrite bind_session_id_fits by exact (session_id_fits_found _ _ Hs).
  revert Hs.
  unfold get_session, session_submissions, get_restaurant.
  step_handler. intros -> Hsub Hr.
  cbn [update_sessions set_sessions user_session_restaurants_table].
  rewrite Hsub. unfold ret. cbn [set_sessions restaurants_table].
  unfold drawn in Hr. rewrite Hr. reflexivity.
Qed.

End EndSession.

Section SubmitRestaurant.

Variables (rq : RestaurantSubmission) (db : Database).

Lemma submit_unknown_session :
  get_session db (sub_session_id rq) = None ->
  submit_restaurant rq db
  = (db, inl (if int64 (sub_session_id rq)
              then HTTPException 404 "Session not found"
              else OverflowError)).
Proof.
  intros Hs. unfold submit_restaurant.
  pose proof (session_id_fits_none _ _ Hs) as Hfit.
  destruct (int64 (sub_session_id rq)).
  - rewrite bind_session_id_fits by exact Hfit. revert Hs.
    unfold get_session. step_handler. intros ->. reflexivity.
  - now rewrite bind_session_id_overflow.
Qed.

Lemma submit_unknown_user (sess : SessionRow) :
  get_session db (sub_session_id rq) = Some sess ->
  get_user db (sub_user_name rq) = None ->
  submit_restaurant rq db = (db, inl (HTTPException 404 "User not found")).
Proof.
  intros Hs. unfold submit_restaurant.
  rewrite bind_session_id_fits by exact (session_id_fits_found _ _ Hs).
  revert Hs.
  unfold get_session, get_user. step_handler.
  intros -> ->. reflexivity.
Qed.

Lemma submit_accepted (sess : SessionRow) (u : UserRow) :
  get_session db (sub_session_id rq) = Some sess ->
  get_user db (sub_user_name rq) = Some u ->
  submit_restaurant rq db
  = (let (db1, rid) := with_restaurant (sub_restaurant_name rq) db in
     let db2 := recorded (user_id u) (sub_session_id rq) rid db1 in
     store_progress (sub_session_id rq)
       (progress_of
          (List.length (session_submissions db2 (sub_session_id rq)))
          (expected_number_of_participants sess))
       db2,
     inr (mkSubmitReply "Restaurant submitted successfully")).
Proof.
  intros Hs. unfold submit_restaurant.
  rewrite bind_session_id_fits by exact (session_id_fits_found _ _ Hs).
  revert Hs.
  unfold get_session, get_user, with_restaurant, get_restaurant_by_name.
  step_handler. intros -> ->.
  destruct (find _ (restaurants_table db)) as [r|]; reflexivity.
Qed.

End SubmitRestaurant.

Section CheckSubmission.

Variables (sid : Z) (uname : string) (db : Database).

Lemma check_submission_unknown_user :
  get_user db uname = None ->
  check_submission sid uname db
  = (db, inl (HTTPException 404 "User not found")).
Proof.
  unfold get_user, check_submission. step_handler. intros ->. reflexivity.
Qed.

(** With a known participant the handler goes on to bind the session id. *)
Lemma check_submission_known (u : UserRow) :
  get_user db uname = Some u ->
  check_submission sid uname db
  = (bind_session_id sid ;;;
     submission <-
       fetch_one user_session_restaurants_table
         (fun x => (usr_session_id x =? sid) && (usr_user_id x =? user_id u)) ;;
     match submission with
     | Some x =>
         restaurant <-
           fetch_one restaurants_table
             (fun r => (restaurant_id r =? usr_restaurant_id x)) ;;
         rname <- subscript restaurant restaurant_name ;;
         ret (mkCheckSubmissionReply true (Some rname))
     | None => ret (mkCheckSubmissionReply false None)
     end) db.
Proof.
  unfold get_user, check_submission. intros Hu.
  unfold bind at 1. unfold fetch_one at 1. cbn [fst snd]. now rewrite Hu.
Qed.

Lemma check_submission_overflow (u : UserRow) :
  get_user db uname = Some u ->
  session_id_fits db sid = false ->
  check_submission sid uname db = (db, inl OverflowError).
Proof.
  intros Hu Hfit. rewrite (check_submission_known Hu).
  now apply bind_session_id_overflow.
Qed.

Lemma check_submission_none (u : UserRow) :
  get_user db uname = Some u ->
  session_id_fits db sid = true ->
  user_submissions db sid (user_id u) = [] ->
  check_submission sid uname db
  = (db, inr (mkCheckSubmissionReply false None)).
Proof.
  intros Hu Hfit. rewrite (check_submission_known Hu).
  rewrite bind_session_id_fits by exact Hfit.
  unfold user_submissions. step_handler.
  intros Hnil. apply filter_nil_find in Hnil. rewrite Hnil. reflexivity.
Qed.

Lemma check_submission_first (u : UserRow) (x : SubmissionRow)
    (r : RestaurantRow) :
  get_user db uname = Some u ->
  session_id_fits db sid = true ->
  find (fun x0 => (usr_session_id x0 =? sid) && (usr_user_id x0 =? user_id u))
       (user_session_restaurants_table db) = Some x ->
  get_restaurant db (usr_restaurant_id x) = Some r ->
  check_submission sid uname db
  = (db, inr (mkCheckSubmissionReply true (Some (restaurant_name r)))).
Proof.
  intros Hu Hfit. rewrite (check_submission_known Hu).
  rewrite bind_session_id_fits by exact Hfit.
  unfold get_restaurant. step_handler. intros -> ->. reflexivity.
Qed.

Lemma check_submission_found (u : UserRow) (x : SubmissionRow)
    (l : list SubmissionRow) (r : RestaurantRow) :
  get_user db uname = Some u ->
  session_id_fits db sid = true ->
  user_submissions db sid (user_id u) = x :: l ->
  get_restaurant db (usr_restaurant_id x) = Some r ->
  check_submission sid uname db
  = (db, inr (mkCheckSubmissionReply true (Some (restaurant_name r)))).
Proof.
  intros Hu Hfit Hl Hr. apply check_submission_first with (u := u) (x := x);
    try assumption.
  revert Hl. unfold user_submissions.
  generalize (user_session_restaurants_table db) as subs.
  induction subs as [|a subs IH]; simpl; [discriminate|].
  destruct ((usr_session_id a =? sid) && (usr_user_id a =? user_id u)).
  - congruence.
  - exact IH.
Qed.

(** A positive reply comes from the first submission of the participant to
    the session and the restaurant row it refers to. *)
Lemma check_submission_true_inv (n : string) :
  check_submission sid uname db
  = (db, inr (mkCheckSubmissionReply true (Some n))) ->
  exists u x r,
    get_user db uname = Some u
    /\ session_id_fits db sid = true
    /\ find (fun x0 => (usr_session_id x0 =? sid)
                       && (usr_user_id x0 =? user_id u))
            (user_session_restaurants_table db) = Some x
    /\ get_restaurant db (usr_restaurant_id x) = Some r
    /\ restaurant_name r = n.
Proof.
  destruct (get_user db uname) as [u|] eqn:Hu;
    [|rewrite (check_submission_unknown_user Hu); discriminate].
  rewrite (check_submission_known Hu).
  destruct (session_id_fits db sid) eqn:Hfit;
    [|rewrite bind_session_id_overflow by exact Hfit; discriminate].
  rewrite bind_session_id_fits by exact Hfit.
  unfold get_restaurant. step_handler.
  destruct (find _ (user_session_restaurants_table db)) as [x|] eqn:Hx;
    [|discriminate].
  destruct (find _ (restaurants_table db)) as [r|] eqn:Hr; [|discriminate].
  unfold ret. intros Heq. exists u, x, r.
  repeat split; try assumption. congruence.
Qed.

End CheckSubmission.

Section LoginAndCreate.

Variable db : Database.

Lemma login_tables (rq : LoginRequest) :
  sessions_table (fst (login rq db)) = sessions_table db
  /\ restaurants_table (fst (login rq db)) = restaurants_table db
  /\ user_session_restaurants_table (fst (login rq db))
     = user_session_restaurants_table db.
Proof.
  unfold login. step_handler.
  destruct (find _ (users_table db)); cbn; auto.
Qed.

Lemma create_session_tables (rq : CreateSessionRequest) :
  (sessions_table (fst (create_session rq db)) = sessions_table db
   \/ exists owner,
        sessions_table (fst (create_session rq db))
        = sessions_table db
          ++ [mkSession (next_rowid (map session_id (sessions_table db)))
                (name rq) 0 (session_participants rq) owner "open" None])
  /\ restaurants_table (fst (create_session rq db)) = restaurants_table db
  /\ user_session_restaurants_table (fst (create_session rq db))
     = user_session_restaurants_table db.
Proof.
  unfold create_session. step_handler. unfold bind_int.
  destruct (find _ (users_table db)), (int64 (session_participants rq));
    cbn; eauto.
Qed.

End LoginAndCreate.

(** ** Rounding *)

Section Rounding.

Variables a b : Z.
Hypothesis b_pos : 0 < b.

(** [py_round_div] is a nearest integer of the quotient. *)
Lemma py_round_div_nearest :
  Z.abs (2 * (b * py_round_div a b) - 2 * a) <= b.
Proof.
  unfold py_round_div.
  pose proof (Z.div_mod a b ltac:(lia)) as Hdm.
  pose proof (Z.mod_pos_bound a b b_pos) as Hr.
  destruct (2 * (a mod b) <? b) eqn:H1; [apply Z.ltb_lt in H1; lia|].
  apply Z.ltb_ge in H1.
  destruct (b <? 2 * (a mod b)) eqn:H2; [apply Z.ltb_lt in H2; lia|].
  apply Z.ltb_ge in H2.
  destruct (Z.even (a / b)); lia.
Qed.

(** On a tie the even neighbour is taken. *)
Lemma py_round_div_tie :
  2 * (a mod b) = b -> Z.even (py_round_div a b) = true.
Proof.
  intros Htie. unfold py_round_div.
  rewrite Htie, Z.ltb_irrefl.
  destruct (Z.even (a / b)) eqn:He; [exact He|].
  rewrite Z.even_add, He. reflexivity.
Qed.

Lemma py_round_div_nonneg : 0 <= a -> 0 <= py_round_div a b.
Proof.
  intros Ha. unfold py_round_div.
  pose proof (Z.div_pos a b Ha b_pos).
  destruct (2 * (a mod b) <? b); [assumption|].
  destruct (b <? 2 * (a mod b)); [lia|].
  destruct (Z.even (a / b)); lia.
Qed.

Lemma py_round_div_le_100 : a <= 100 * b -> py_round_div a b <= 100.
Proof.
  intros Hle. unfold py_round_div.
  pose proof (Z.div_mod a b ltac:(lia)) as Hdm.
  pose proof (Z.mod_pos_bound a b b_pos) as Hr.
  assert (Hq : a / b <= 100) by (apply Z.div_le_upper_bound; lia).
  assert (Hfull : a / b = 100 -> a mod b = 0) by nia.
  destruct (2 * (a mod b) <? b) eqn:H1; [assumption|].
  apply Z.ltb_ge in H1.
  assert (a / b <> 100) by (intros H100; specialize (Hfull H100); lia).
  destruct (b <? 2 * (a mod b)); [lia|].
  destruct (Z.even (a / b)); lia.
Qed.

End Rounding.

(** [round(0.5)], [round(1.5)], [round(2.5)], [round(3.5)] and two quotients
    off the middle. *)
Example py_round_div_samples :
  map (fun a => py_round_div a 200) [100; 300; 500; 700; 99; 301]
  = [0; 2; 2; 4; 0; 2].
Proof. reflexivity. Qed.

Lemma progress_of_0 (participants : Z) : progress_of 0 participants = 0.
Proof.
  unfold progress_of. destruct (participants >? 0) eqn:Hp; [|reflexivity].
  apply Z.gtb_lt in Hp. unfold py_round_div. cbn [Z.of_nat Z.mul].
  rewrite Z.div_0_l, Z.mod_0_l by lia. cbn [Z.mul].
  destruct (0 <? participants) eqn:H0; [reflexivity|].
  apply Z.ltb_ge in H0. lia.
Qed.

Lemma progress_of_nonneg (count : nat) (participants : Z) :
  0 <= progress_of count participants.
Proof.
  unfold progress_of. destruct (participants >? 0) eqn:Hp; [|lia].
  apply Z.gtb_lt in Hp. apply py_round_div_nonneg; lia.
Qed.

Lemma progress_of_le_100 (count : nat) (participants : Z) :
  Z.of_nat count <= participants -> progress_of count participants <= 100.
Proof.
  intros Hle. unfold progress_of.
  destruct (participants >? 0) eqn:Hp; [|lia].
  apply Z.gtb_lt in Hp. apply py_round_div_le_100; lia.
Qed.

(** The rounded quotient stays within 100 up to the tie at 100.5. *)
Lemma py_round_div_le_100_iff (a b : Z) :
  0 < b -> (py_round_div a b <= 100 <-> 2 * a <= 201 * b).
Proof.
  intros Hb. unfold py_round_div.
  pose proof (Z.div_mod a b ltac:(lia)) as Hdm.
  pose proof (Z.mod_pos_bound a b Hb) as Hr.
  set (q := a / b) in *. set (r := a mod b) in *.
  assert (Hq : q <= 99 \/ q = 100 \/ 101 <= q) by lia.
  destruct Hq as [Hq|[Hq|Hq]].
  - assert (b * q <= b * 99) by nia.
    destruct (2 * r <? b), (b <? 2 * r), (Z.even q); split; intros; lia.
  - rewrite Hq in *. change (Z.even 100) with true. cbv iota.
    destruct (2 * r <? b) eqn:H1; [apply Z.ltb_lt in H1; lia|].
    apply Z.ltb_ge in H1.
    destruct (b <? 2 * r) eqn:H2; [apply Z.ltb_lt in H2|apply Z.ltb_ge in H2];
      split; intros; lia.
  - assert (b * 101 <= b * q) by nia.
    destruct (2 * r <? b), (b <? 2 * r), (Z.even q); split; intros; lia.
Qed.

Lemma progress_of_le_100_iff (count : nat) (participants : Z) :
  progress_of count participants <= 100
  <-> participants <= 0 \/ 200 * Z.of_nat count <= 201 * participants.
Proof.
  unfold progress_of. destruct (participants >? 0) eqn:Hp.
  - apply Z.gtb_lt in Hp. rewrite py_round_div_le_100_iff by exact Hp. lia.
  - pose proof (Zgt_cases participants 0) as Hc. rewrite Hp in Hc. lia.
Qed.

(** ** Every handler keeps the store well formed *)

Section Preservation.

Lemma well_formed_map_sessions (g : SessionRow -> SessionRow)
    (ss : list SessionRow) (us : list UserRow) (rs : list RestaurantRow)
    (xs : list SubmissionRow) :
  NoDup (map session_id ss) ->
  NoDup (map restaurant_id rs) ->
  (forall x, In x xs -> In (usr_session_id x) (map session_id ss)) ->
  (forall x, In x xs -> In (usr_restaurant_id x) (map restaurant_id rs)) ->
  (forall s, session_id (g s) = session_id s) ->
  (forall s, In s ss ->
     progress (g s)
     = progress_of
         (List.length (filter (fun x => usr_session_id x =? session_id s) xs))
         (expected_number_of_participants (g s))) ->
  (forall s, In s ss -> result (g s) <> None ->
     filter (fun x => usr_session_id x =? session_id s) xs <> []) ->
  well_formed (mkDatabase (map g ss) us rs xs).
Proof.
  intros Hss Hrs Hxs Hxr Hid Hprog Hres.
  assert (Hids : map session_id (map g ss) = map session_id ss).
  { rewrite map_map. apply map_ext. exact Hid. }
  constructor; unfold session_submissions; cbn [sessions_table
    restaurants_table user_session_restaurants_table].
  - now rewrite Hids.
  - assumption.
  - intros x Hx. rewrite Hids. now apply Hxs.
  - assumption.
  - intros s' Hin. apply in_map_iff in Hin. destruct Hin as [s [<- Hin]].
    rewrite Hid. now apply Hprog.
  - intros s' Hin. apply in_map_iff in Hin. destruct Hin as [s [<- Hin]].
    rewrite Hid. now apply Hres.
Qed.

Lemma well_formed_empty : well_formed empty_database.
Proof.
  constructor; cbn; try constructor; intros; contradiction.
Qed.

Lemma well_formed_mark_closed (sid : Z) (db : Database) :
  well_formed db -> well_formed (mark_closed sid db).
Proof.
  intros [Hss Hrs Hxs Hxr Hprog Hres].
  unfold mark_closed, update_sessions, set_sessions. cbn [fst].
  apply well_formed_map_sessions; try assumption.
  - intros s. destruct (session_id s =? sid); reflexivity.
  - intros s Hin. specialize (Hprog s Hin).
    destruct (session_id s =? sid); exact Hprog.
  - intros s Hin Hr. apply (Hres s Hin).
    destruct (session_id s =? sid); exact Hr.
Qed.

Lemma well_formed_store_result (sid : Z) (r : string) (db : Database) :
  well_formed db ->
  session_submissions db sid <> [] ->
  well_formed (store_result sid r db).
Proof.
  intros [Hss Hrs Hxs Hxr Hprog Hres] Hne.
  unfold store_result, update_sessions, set_sessions. cbn [fst].
  apply well_formed_map_sessions; try assumption.
  - intros s. destruct (session_id s =? sid); reflexivity.
  - intros s Hin. specialize (Hprog s Hin).
    destruct (session_id s =? sid); exact Hprog.
  - intros s Hin Hr. destruct (session_id s =? sid) eqn:Hs.
    + apply Z.eqb_eq in Hs. rewrite Hs. exact Hne.
    + now apply (Hres s Hin).
Qed.

Lemma well_formed_login (rq : LoginRequest) (db : Database) :
  well_formed db -> well_formed (fst (login rq db)).
Proof.
  intros [Hss Hrs Hxs Hxr Hprog Hres].
  destruct (login_tables db rq) as [Es [Er Ex]].
  constructor; unfold session_submissions; rewrite ?Es, ?Er, ?Ex; assumption.
Qed.

Lemma well_formed_create_session (rq : CreateSessionRequest) (db : Database) :
  well_formed db -> well_formed (fst (create_session rq db)).
Proof.
  intros [Hss Hrs Hxs Hxr Hprog Hres].
  destruct (create_session_tables db rq) as [[Es|[owner Es]] [Er Ex]];
    [constructor; unfold session_submissions; rewrite ?Es, ?Er, ?Ex;
     assumption|].
  set (i := next_rowid (map session_id (sessions_table db))) in *.
  assert (Hnone : session_submissions db i = []).
  { unfold session_submissions.
    destruct (filter _ _) as [|x l] eqn:Hf; [reflexivity|].
    assert (Hin : In x (x :: l)) by now left.
    rewrite <- Hf in Hin. apply filter_In in Hin. destruct Hin as [Hin Hk].
    apply Z.eqb_eq in Hk. apply Hxs in Hin. rewrite Hk in Hin.
    exfalso. exact (next_rowid_fresh _ Hin). }
  constructor; unfold session_submissions; rewrite ?Es, ?Er, ?Ex;
    try assumption.
  - rewrite map_app. cbn [map session_id]. now apply NoDup_snoc_fresh.
  - intros x Hx. rewrite map_app. apply in_or_app. left. now apply Hxs.
  - intros s Hin. apply in_app_or in Hin. destruct Hin as [Hin|[<-|[]]].
    + now apply Hprog.
    + cbn [session_id progress expected_number_of_participants].
      fold (session_submissions db i). rewrite Hnone.
      symmetry. apply progress_of_0.
  - intros s Hin Hr. apply in_app_or in Hin. destruct Hin as [Hin|[<-|[]]].
    + now apply Hres.
    + now contradiction Hr.
Qed.

Lemma with_restaurant_cases (rname : string) (db : Database) :
  (exists r, get_restaurant_by_name db rname = Some r
             /\ with_restaurant rname db = (db, restaurant_id r))
  \/ (get_restaurant_by_name db rname = None
      /\ with_restaurant rname db
         = (set_restaurants
              (restaurants_table db
               ++ [mkRestaurant
                     (next_rowid (map restaurant_id (restaurants_table db)))
                     None rname]) db,
            next_rowid (map restaurant_id (restaurants_table db)))).
Proof.
  unfold with_restaurant.
  destruct (get_restaurant_by_name db rname) as [r|]; [left|right]; eauto.
Qed.

Lemma well_formed_with_restaurant (rname : string) (db db1 : Database)
    (rid : Z) :
  well_formed db ->
  with_restaurant rname db = (db1, rid) ->
  well_formed db1
  /\ In rid (map restaurant_id (restaurants_table db1))
  /\ sessions_table db1 = sessions_table db
  /\ users_table db1 = users_table db
  /\ user_session_restaurants_table db1 = user_session_restaurants_table db.
Proof.
  intros Hwf Hw.
  destruct (with_restaurant_cases rname db) as [[r [Hr Heq]]|[Hr Heq]];
    rewrite Heq in Hw; injection Hw as <- <-.
  - split; [exact Hwf|]. split; [|auto].
    unfold get_restaurant_by_name in Hr. apply find_some in Hr.
    apply in_map. tauto.
  - destruct Hwf as [Hss Hrs Hxs Hxr Hprog Hres].
    split; [|split; [|auto]]; cbn [set_restaurants restaurants_table].
    + constructor; try assumption;
        cbn [set_restaurants restaurants_table user_session_restaurants_table].
      * rewrite map_app. cbn [map restaurant_id]. now apply NoDup_snoc_fresh.
      * intros x Hx. rewrite map_app. apply in_or_app. left. now apply Hxr.
    + rewrite map_app. apply in_or_app. right. now left.
Qed.

Lemma session_submissions_recorded (uid sid rid sid' : Z) (db : Database) :
  session_submissions (recorded uid sid rid db) sid'
  = session_submissions db sid'
    ++ (if sid =? sid'
        then [mkSubmission
                (next_rowid (map usr_id (user_session_restaurants_table db)))
                uid sid rid]
        else []).
Proof.
  unfold session_submissions, recorded, insert_submission, set_submissions.
  cbn [fst user_session_restaurants_table]. rewrite filter_app.
  cbn [filter usr_session_id]. reflexivity.
Qed.

Lemma well_formed_record_progress (uid sid rid : Z) (sess : SessionRow)
    (db : Database) :
  well_formed db ->
  get_session db sid = Some sess ->
  In rid (map restaurant_id (restaurants_table db)) ->
  well_formed
    (store_progress sid
       (progress_of
          (List.length (session_submissions (recorded uid sid rid db) sid))
          (expected_number_of_participants sess))
       (recorded uid sid rid db)).
Proof.
  intros [Hss Hrs Hxs Hxr Hprog Hres] Hsess Hrid.
  apply find_key_in in Hsess. destruct Hsess as [Hin_sess Hsid].
  set (p := progress_of _ _).
  pose proof (session_submissions_recorded uid sid rid) as Hrec.
  unfold store_progress, update_sessions, set_sessions. cbn [fst].
  change (sessions_table (recorded uid sid rid db)) with (sessions_table db).
  change (users_table (recorded uid sid rid db)) with (users_table db).
  change (restaurants_table (recorded uid sid rid db))
    with (restaurants_table db).
  apply well_formed_map_sessions; try assumption.
  - intros x Hx. unfold recorded in Hx. cbn in Hx.
    apply in_app_or in Hx. destruct Hx as [Hx|[<-|[]]]; [now apply Hxs|].
    cbn [usr_session_id]. rewrite <- Hsid. now apply in_map.
  - intros x Hx. unfold recorded in Hx. cbn in Hx.
    apply in_app_or in Hx. destruct Hx as [Hx|[<-|[]]]; [now apply Hxr|].
    exact Hrid.
  - intros s. destruct (session_id s =? sid); reflexivity.
  - intros s Hin.
    fold (session_submissions (recorded uid sid rid db) (session_id s)).
    destruct (session_id s =? sid) eqn:Hs.
    + apply Z.eqb_eq in Hs.
      assert (s = sess) as ->.
      { pose proof (find_key_unique session_id _ s Hss Hin) as H1.
        pose proof (find_key_unique session_id _ sess Hss Hin_sess) as H2.
        rewrite Hs, <- Hsid in H1. congruence. }
      cbn [with_progress progress expected_number_of_participants].
      subst p. now rewrite Hsid.
    + rewrite Hrec. rewrite Z.eqb_sym, Hs, app_nil_r. now apply Hprog.
  - intros s Hin Hr.
    fold (session_submissions (recorded uid sid rid db) (session_id s)).
    rewrite Hrec. intros Happ. apply app_eq_nil in Happ.
    apply (Hres s Hin); [|tauto].
    destruct (session_id s =? sid); exact Hr.
Qed.

Lemma well_formed_submit_restaurant (rq : RestaurantSubmission)
    (db : Database) :
  well_formed db -> well_formed (fst (submit_restaurant rq db)).
Proof.
  intros Hwf.
  destruct (get_session db (sub_session_id rq)) as [sess|] eqn:Hsess;
    [|now rewrite submit_unknown_session].
  destruct (get_user db (sub_user_name rq)) as [u|] eqn:Hu;
    [|now rewrite (submit_unknown_user _ _ Hsess Hu)].
  rewrite (submit_accepted _ _ Hsess Hu).
  destruct (with_restaurant (sub_restaurant_name rq) db) as [db1 rid] eqn:Hw.
  destruct (well_formed_with_restaurant _ Hwf Hw) as [Hwf1 [Hrid [Es _]]].
  cbn [fst]. apply well_formed_record_progress; try assumption.
  unfold get_session in *. now rewrite Es.
Qed.

Lemma well_formed_end_session (rnd : nat) (sid : Z) (db : Database) :
  well_formed db -> well_formed (fst (end_session rnd sid db)).
Proof.
  intros Hwf.
  destruct (get_session db sid) as [s|] eqn:Hs;
    [|now rewrite end_session_unknown].
  destruct (session_submissions db sid) as [|x l] eqn:Hx.
  - rewrite (end_session_empty rnd _ _ Hs Hx). now apply well_formed_mark_closed.
  - destruct (get_restaurant db (usr_restaurant_id (drawn rnd x l)))
      as [r|] eqn:Hr.
    + rewrite (end_session_drawn rnd _ _ Hs Hx Hr). cbn [fst].
      apply well_formed_store_result; [now apply well_formed_mark_closed|].
      change (session_submissions (mark_closed sid db) sid)
        with (session_submissions db sid).
      rewrite Hx. discriminate.
    + rewrite (end_session_dangling rnd _ _ Hs Hx Hr).
      now apply well_formed_mark_closed.
Qed.

Lemma well_formed_handle (rq : request) (db : Database) :
  well_formed db -> well_formed (handle rq db).
Proof.
  destruct rq; cbn [handle].
  - apply well_formed_login.
  - apply well_formed_create_session.
  - apply well_formed_end_session.
  - apply well_formed_submit_restaurant.
Qed.

Lemma reachable_well_formed (db : Database) :
  reachable db -> well_formed db.
Proof.
  induction 1 as [|db rq _ IH].
  - exact well_formed_empty.
  - now apply well_formed_handle.
Qed.

Lemma reachable_run (rqs : list request) (db : Database) :
  reachable db -> reachable (run rqs db).
Proof.
  revert db. induction rqs as [|rq rqs IH]; intros db Hr; [exact Hr|].
  cbn [run fold_left]. apply IH. now constructor.
Qed.

End Preservation.

(** ** Closing a session *)

Section Closing.

Variables (rnd : nat) (sid : Z) (db : Database).

(** The row found under [sid] after an update of the rows of that id. *)
Lemma get_session_update (f : SessionRow -> SessionRow) (d : Database)
    (s : SessionRow) :
  (forall s0, session_id (f s0) = session_id s0) ->
  get_session d sid = Some s ->
  get_session (fst (update_sessions (fun s0 => session_id s0 =? sid) f d)) sid
  = Some (f s).
Proof.
  intros Hf Hs. unfold get_session, update_sessions, set_sessions.
  cbn [fst sessions_table]. rewrite find_map_upd by exact Hf.
  fold (get_session d sid). rewrite Hs. cbn [option_map].
  apply find_key_in in Hs. destruct Hs as [_ Hs].
  apply Z.eqb_eq in Hs. now rewrite Hs.
Qed.

Lemma get_session_mark_closed (s : SessionRow) :
  get_session db sid = Some s ->
  get_session (mark_closed sid db) sid = Some (with_status "closed" s).
Proof. intros Hs. unfold mark_closed. now apply get_session_update. Qed.

Lemma get_session_store_result (r : string) (s : SessionRow) (d : Database) :
  get_session d sid = Some s ->
  get_session (store_result sid r d) sid = Some (with_result r s).
Proof. intros Hs. unfold store_result. now apply get_session_update. Qed.

Lemma drawn_in {A} (x : A) (l : list A) : In (drawn rnd x l) (x :: l).
Proof.
  unfold drawn. apply nth_In. apply Nat.mod_upper_bound. discriminate.
Qed.

(** On a well-formed store with a submission for the session, the close
    replies with the restaurant of the drawn submission and stores it. *)
Lemma end_session_selects (s : SessionRow) :
  well_formed db ->
  get_session db sid = Some s ->
  session_submissions db sid <> [] ->
  exists x r,
    In x (session_submissions db sid)
    /\ get_restaurant db (usr_restaurant_id x) = Some r
    /\ end_session rnd sid db
       = (store_result sid (restaurant_name r) (mark_closed sid db),
          inr (mkEndSessionReply "Session ended successfully"
                 (restaurant_name r)))
    /\ get_session (store_result sid (restaurant_name r) (mark_closed sid db))
         sid
       = Some (with_result (restaurant_name r) (with_status "closed" s)).
Proof.
  intros Hwf Hs Hne.
  destruct (session_submissions db sid) as [|x l] eqn:Hx; [congruence|].
  pose proof (drawn_in x l) as Hin.
  assert (Hsub : In (drawn rnd x l) (user_session_restaurants_table db)).
  { rewrite <- Hx in Hin. unfold session_submissions in Hin.
    apply filter_In in Hin. tauto. }
  apply (wf_submission_restaurant Hwf) in Hsub.
  apply find_key_exists in Hsub. destruct Hsub as [r Hr].
  fold (get_restaurant db (usr_restaurant_id (drawn rnd x l))) in Hr.
  exists (drawn rnd x l), r. repeat split.
  - exact Hin.
  - exact Hr.
  - exact (end_session_drawn rnd sid db Hs Hx Hr).
  - apply get_session_store_result. now apply get_session_mark_closed.
Qed.

End Closing.

(** * The session life cycle: closing *)




(** C9: on a reachable store, closing an existing session that has no
    submission fails (the draw raises IndexError), and the store it leaves
    behind already holds the session as closed, with no result; the other
    tables are untouched. *)
Theorem end_session_empty_leaves_closed (rnd : nat) (sid : Z) (db : Database)
    (s : SessionRow) :
  reachable db ->
  get_session db sid = Some s ->
  session_submissions db sid = [] ->
  exists db' s',
    end_session rnd sid db = (db', inl IndexError)
    /\ get_session db' sid = Some s'
    /\ status s' = "closed"
    /\ result s' = None
    /\ users_table db' = users_table db
    /\ restaurants_table db' = restaurants_table db
    /\ user_session_restaurants_table db' = user_session_restaurants_table db.
Proof.
  intros Hreach Hs Hnil. apply reachable_well_formed in Hreach.
  exists (mark_closed sid db), (with_status "closed" s).
  split; [exact (end_session_empty rnd sid db Hs Hnil)|].
  split; [now apply get_session_mark_closed|].
  split; [reflexivity|].
  split; [|repeat split].
  cbn [with_status result].
  destruct (result s) as [r|] eqn:Hr; [|reflexivity].
  exfalso. pose proof Hs as Hin. apply find_key_in in Hin.
  destruct Hin as [Hin Hid].
  apply (wf_result Hreach s Hin); [congruence|]. now rewrite Hid.
Qed.

Lemma end_session_empty_leaves_closed_witness :
  reachable store_open
  /\ get_session store_open 1 = Some (mkSession 1 "Dinner" 0 2 1 "open" None)
  /\ session_submissions store_open 1 = []
  /\ exists db' s',
    end_session 5 1 store_open = (db', inl IndexError)
    /\ get_session db' 1 = Some s'
    /\ status s' = "closed"
    /\ result s' = None
    /\ users_table db' = users_table store_open
    /\ restaurants_table db' = restaurants_table store_open
    /\ user_session_restaurants_table db'
       = user_session_restaurants_table store_open.
Proof.
  assert (Hreach : reachable store_open) by (apply reachable_run; constructor).
  split; [exact Hreach|]. split; [reflexivity|]. split; [reflexivity|].
  apply (end_session_empty_leaves_closed 5 1 (db := store_open)
           (s := mkSession 1 "Dinner" 0 2 1 "open" None));
    [exact Hreach|reflexivity|reflexivity].
Defined.

(** C1: the close of the freshly opened "Dinner" session, which has no
    submission, does not succeed: whatever the draw, it raises IndexError
    after the status has been written. *)
Theorem end_session_no_submission_raises (rnd : nat) :
  get_session store_open 1 = Some (mkSession 1 "Dinner" 0 2 1 "open" None)
  /\ session_submissions store_open 1 = []
  /\ end_session rnd 1 store_open
     = (mkDatabase [mkSession 1 "Dinner" 0 2 1 "closed" None]
                   [mkUser 1 "alice"] [] [],
        inl IndexError).
Proof. repeat split. Qed.

(** C6: on a reachable store, closing an existing session whose submission
    set is not empty succeeds for every draw: the reply and the stored
    result are the name of the restaurant referenced by a submission of that
    session, and the stored status is closed. *)
Theorem end_session_picks_submitted (rnd : nat) (sid : Z) (db : Database)
    (s : SessionRow) :
  reachable db ->
  get_session db sid = Some s ->
  session_submissions db sid <> [] ->
  exists db' s' x r,
    end_session rnd sid db
    = (db', inr (mkEndSessionReply "Session ended successfully"
                   (restaurant_name r)))
    /\ In x (session_submissions db sid)
    /\ get_restaurant db (usr_restaurant_id x) = Some r
    /\ get_session db' sid = Some s'
    /\ status s' = "closed"
    /\ result s' = Some (restaurant_name r).
Proof.
  intros Hreach Hs Hne. apply reachable_well_formed in Hreach.
  destruct (end_session_selects rnd sid Hreach Hs Hne) as [x [r [Hin [Hr [He Hg]]]]].
  exists (store_result sid (restaurant_name r) (mark_closed sid db)),
         (with_result (restaurant_name r) (with_status "closed" s)), x, r.
  repeat split; assumption.
Qed.

Lemma end_session_picks_submitted_witness :
  reachable store_voted
  /\ get_session store_voted 1
     = Some (mkSession 1 "Dinner" 100 2 1 "open" None)
  /\ session_submissions store_voted 1 <> []
  /\ exists db' s' x r,
    end_session 1 1 store_voted
    = (db', inr (mkEndSessionReply "Session ended successfully"
                   (restaurant_name r)))
    /\ In x (session_submissions store_voted 1)
    /\ get_restaurant store_voted (usr_restaurant_id x) = Some r
    /\ get_session db' 1 = Some s'
    /\ status s' = "closed"
    /\ result s' = Some (restaurant_name r).
Proof.
  assert (Hreach : reachable store_voted)
    by (apply reachable_run; apply (reachable_run [dinner]); constructor).
  split; [exact Hreach|]. split; [reflexivity|]. split; [discriminate|].
  apply (end_session_picks_submitted 1 1 (db := store_voted)
           (s := mkSession 1 "Dinner" 100 2 1 "open" None));
    [exact Hreach|reflexivity|discriminate].
Defined.

(** C2, as the code behaves: on a reachable store, closing again a session
    that is closed with a result stored succeeds and keeps the status closed,
    but draws anew: whatever the old result, the reply and the stored result
    become the name of the restaurant of the submission the draw [rnd]
    selects among the session's current submissions, so the result changes
    whenever that name differs from the old one. *)
Theorem end_session_again_redraws (rnd : nat) (sid : Z) (db : Database)
    (s : SessionRow) (old : string) :
  reachable db ->
  get_session db sid = Some s ->
  status s = "closed" ->
  result s = Some old ->
  exists x0 l r db' s',
    session_submissions db sid = x0 :: l
    /\ get_restaurant db (usr_restaurant_id (drawn rnd x0 l)) = Some r
    /\ end_session rnd sid db
       = (db', inr (mkEndSessionReply "Session ended successfully"
                      (restaurant_name r)))
    /\ get_session db' sid = Some s'
    /\ status s' = "closed"
    /\ result s' = Some (restaurant_name r)
    /\ (restaurant_name r <> old -> result s' <> result s).
Proof.
  intros Hreach Hs _ Hres. apply reachable_well_formed in Hreach.
  assert (Hne : session_submissions db sid <> []).
  { pose proof Hs as Hin. apply find_key_in in Hin. destruct Hin as [Hin Hid].
    rewrite <- Hid. apply (wf_result Hreach s Hin). congruence. }
  destruct (session_submissions db sid) as [|x0 l] eqn:Hx; [congruence|].
  pose proof (drawn_in rnd x0 l) as Hin.
  assert (Hsub : In (drawn rnd x0 l) (user_session_restaurants_table db)).
  { rewrite <- Hx in Hin. apply filter_In in Hin. tauto. }
  apply (wf_submission_restaurant Hreach) in Hsub.
  apply find_key_exists in Hsub. destruct Hsub as [r Hr].
  fold (get_restaurant db (usr_restaurant_id (drawn rnd x0 l))) in Hr.
  exists x0, l, r,
    (store_result sid (restaurant_name r) (mark_closed sid db)),
    (with_result (restaurant_name r) (with_status "closed" s)).
  split; [reflexivity|]. split; [exact Hr|].
  split; [exact (end_session_drawn rnd sid db Hs Hx Hr)|].
  split; [apply get_session_store_result; now apply get_session_mark_closed|].
  split; [reflexivity|]. split; [reflexivity|].
  cbn [with_result result]. rewrite Hres. congruence.
Qed.

Lemma end_session_again_redraws_witness :
  reachable store_closed
  /\ get_session store_closed 1
     = Some (mkSession 1 "Dinner" 100 2 1 "closed" (Some "Pizza Place"))
  /\ exists x0 l r db' s',
       session_submissions store_closed 1 = x0 :: l
       /\ get_restaurant store_closed (usr_restaurant_id (drawn 1 x0 l))
          = Some r
       /\ end_session 1 1 store_closed
          = (db', inr (mkEndSessionReply "Session ended successfully"
                         (restaurant_name r)))
       /\ get_session db' 1 = Some s'
       /\ status s' = "closed"
       /\ result s' = Some (restaurant_name r)
       /\ (restaurant_name r <> "Pizza Place" ->
           result s' <> Some "Pizza Place").
Proof.
  assert (Hreach : reachable store_closed)
    by (do 2 apply reachable_run; apply (reachable_run [dinner]); constructor).
  split; [exact Hreach|]. split; [reflexivity|].
  apply (@end_session_again_redraws 1 1 store_closed
           (mkSession 1 "Dinner" 100 2 1 "closed" (Some "Pizza Place"))
           "Pizza Place" Hreach); reflexivity.
Defined.

(** C2, refuted as stated: "Dinner" is closed with the result "Pizza Place";
    closing it again with a draw that lands on bob's submission leaves it
    closed with the result "Sushi Bar". *)
Lemma end_session_again_changes_result :
  reachable store_closed
  /\ get_session store_closed 1
     = Some (mkSession 1 "Dinner" 100 2 1 "closed" (Some "Pizza Place"))
  /\ get_session (fst (end_session 1 1 store_closed)) 1
     = Some (mkSession 1 "Dinner" 100 2 1 "closed" (Some "Sushi Bar")).
Proof.
  split; [|split; reflexivity].
  do 2 apply reachable_run. apply (reachable_run [dinner]). constructor.
Qed.

(** * The session life cycle: submitting *)

Section Submitting.

Lemma with_restaurant_tables (rname : string) (db db1 : Database) (rid : Z) :
  with_restaurant rname db = (db1, rid) ->
  sessions_table db1 = sessions_table db
  /\ users_table db1 = users_table db
  /\ user_session_restaurants_table db1 = user_session_restaurants_table db.
Proof.
  intros Hw.
  destruct (with_restaurant_cases rname db) as [[r [_ Heq]]|[_ Heq]];
    rewrite Heq in Hw; injection Hw as <- <-; auto.
Qed.

(** The restaurant id the handler submits resolves to a row of the
    submitted name. *)
Lemma with_restaurant_lookup (rname : string) (db db1 : Database) (rid : Z) :
  NoDup (map restaurant_id (restaurants_table db)) ->
  with_restaurant rname db = (db1, rid) ->
  exists r, get_restaurant db1 rid = Some r /\ restaurant_name r = rname.
Proof.
  intros Hnd Hw.
  destruct (with_restaurant_cases rname db) as [[r [Hr Heq]]|[Hr Heq]];
    rewrite Heq in Hw; injection Hw as <- <-.
  - unfold get_restaurant_by_name in Hr. apply find_some in Hr.
    destruct Hr as [Hin Hname]. exists r. split.
    + now apply find_key_unique.
    + now apply String.eqb_eq.
  - exists (mkRestaurant
              (next_rowid (map restaurant_id (restaurants_table db)))
              None rname).
    split; [|reflexivity].
    unfold get_restaurant. cbn [set_restaurants restaurants_table].
    rewrite find_app_none.
    + cbn [find restaurant_id]. now rewrite Z.eqb_refl.
    + apply find_key_none. apply next_rowid_fresh.
Qed.

(** What an accepted submission leaves in the store. *)
Lemma submit_accepted_store (rq : RestaurantSubmission) (db db' : Database)
    (reply : SubmitReply) :
  submit_restaurant rq db = (db', inr reply) ->
  exists sess u db1 rid,
    get_session db (sub_session_id rq) = Some sess
    /\ get_user db (sub_user_name rq) = Some u
    /\ with_restaurant (sub_restaurant_name rq) db = (db1, rid)
    /\ db' = store_progress (sub_session_id rq)
               (progress_of
                  (List.length
                     (session_submissions
                        (recorded (user_id u) (sub_session_id rq) rid db1)
                        (sub_session_id rq)))
                  (expected_number_of_participants sess))
               (recorded (user_id u) (sub_session_id rq) rid db1).
Proof.
  intros Hsub.
  destruct (get_session db (sub_session_id rq)) as [sess|] eqn:Hsess;
    [|rewrite (submit_unknown_session _ _ Hsess) in Hsub; discriminate].
  destruct (get_user db (sub_user_name rq)) as [u|] eqn:Hu;
    [|rewrite (submit_unknown_user _ _ Hsess Hu) in Hsub; discriminate].
  rewrite (submit_accepted _ _ Hsess Hu) in Hsub.
  destruct (with_restaurant (sub_restaurant_name rq) db) as [db1 rid] eqn:Hw.
  injection Hsub as <- _. exists sess, u, db1, rid. auto.
Qed.

End Submitting.

(** C5: after an accepted submission the session row holds the progress
    computed from the number [n] of submissions then recorded for the
    session, the new one included: [round(n * 100 / E)] when the session's
    expected number of participants [E] is positive, and 0 otherwise. *)
Theorem submit_restaurant_progress (rq : RestaurantSubmission)
    (db db' : Database) (reply : SubmitReply) :
  submit_restaurant rq db = (db', inr reply) ->
  exists sess s',
    get_session db (sub_session_id rq) = Some sess
    /\ get_session db' (sub_session_id rq) = Some s'
    /\ expected_number_of_participants s' = expected_number_of_participants sess
    /\ List.length (session_submissions db' (sub_session_id rq))
       = S (List.length (session_submissions db (sub_session_id rq)))
    /\ (0 < expected_number_of_participants s' ->
        progress s'
        = py_round_div
            (Z.of_nat (List.length (session_submissions db' (sub_session_id rq)))
             * 100)
            (expected_number_of_participants s'))
    /\ (expected_number_of_participants s' <= 0 -> progress s' = 0).
Proof.
  intros Hsub.
  destruct (submit_accepted_store _ _ Hsub)
    as [sess [u [db1 [rid [Hsess [Hu [Hw ->]]]]]]].
  destruct (with_restaurant_tables _ _ Hw) as [Es [_ Ex]].
  set (sid := sub_session_id rq) in *.
  set (db2 := recorded (user_id u) sid rid db1).
  assert (Hsess2 : get_session db2 sid = Some sess).
  { unfold get_session in *. change (sessions_table db2) with (sessions_table db1).
    now rewrite Es. }
  set (p := progress_of _ _).
  exists sess, (with_progress p sess).
  split; [exact Hsess|].
  split; [unfold store_progress; now apply get_session_update|].
  split; [reflexivity|].
  change (session_submissions (store_progress sid p db2) sid)
    with (session_submissions db2 sid).
  split.
  - unfold db2. rewrite session_submissions_recorded, Z.eqb_refl.
    rewrite length_app. cbn [List.length].
    unfold session_submissions. rewrite Ex. lia.
  - cbn [with_progress progress expected_number_of_participants].
    subst p. unfold progress_of. split; intros HE.
    + apply Z.gtb_lt in HE. now rewrite HE.
    + destruct (expected_number_of_participants sess >? 0) eqn:Hgt;
        [apply Z.gtb_lt in Hgt; lia|reflexivity].
Qed.

Lemma submit_restaurant_progress_witness :
  snd (submit_restaurant (mkRestaurantSubmission 1 "Pizza Place" "alice")
         store_open)
  = inr (mkSubmitReply "Restaurant submitted successfully")
  /\ exists sess s',
    get_session store_open 1 = Some sess
    /\ get_session
         (fst (submit_restaurant
                 (mkRestaurantSubmission 1 "Pizza Place" "alice") store_open)) 1
       = Some s'
    /\ expected_number_of_participants s' = expected_number_of_participants sess
    /\ List.length
         (session_submissions
            (fst (submit_restaurant
                    (mkRestaurantSubmission 1 "Pizza Place" "alice") store_open))
            1)
       = S (List.length (session_submissions store_open 1))
    /\ (0 < expected_number_of_participants s' ->
        progress s'
        = py_round_div
            (Z.of_nat
               (List.length
                  (session_submissions
                     (fst (submit_restaurant
                             (mkRestaurantSubmission 1 "Pizza Place" "alice")
                             store_open))
                     1))
             * 100)
            (expected_number_of_participants s'))
    /\ (expected_number_of_participants s' <= 0 -> progress s' = 0).
Proof.
  split; [reflexivity|].
  apply (submit_restaurant_progress
           (mkRestaurantSubmission 1 "Pizza Place" "alice") store_open
           (reply := mkSubmitReply "Restaurant submitted successfully")).
  reflexivity.
Defined.

(** C3, as the code behaves: in every reachable store the progress of a
    session is the value computed from its current submission count [n]
    (repeats of one participant included) and its expected number of
    participants [E], hence never negative; it is at most 100 exactly when
    [E <= 0] or [200 * n <= 201 * E], in particular whenever [n <= E], and
    above 100 in every other case. *)
Theorem progress_bounds (db : Database) (s : SessionRow) :
  reachable db ->
  In s (sessions_table db) ->
  progress s
  = progress_of (List.length (session_submissions db (session_id s)))
                (expected_number_of_participants s)
  /\ 0 <= progress s
  /\ (Z.of_nat (List.length (session_submissions db (session_id s)))
      <= expected_number_of_participants s ->
      progress s <= 100)
  /\ (progress s <= 100
      <-> expected_number_of_participants s <= 0
          \/ 200 * Z.of_nat (List.length (session_submissions db (session_id s)))
             <= 201 * expected_number_of_participants s).
Proof.
  intros Hreach Hin. apply reachable_well_formed in Hreach.
  pose proof (wf_progress Hreach s Hin) as Hp.
  split; [exact Hp|]. rewrite Hp. split; [|split].
  - apply progress_of_nonneg.
  - apply progress_of_le_100.
  - apply progress_of_le_100_iff.
Qed.

Lemma progress_bounds_witness :
  reachable store_twice
  /\ In (mkSession 1 "Solo" 200 1 1 "open" None) (sessions_table store_twice)
  /\ progress (mkSession 1 "Solo" 200 1 1 "open" None)
     = progress_of
         (List.length (session_submissions store_twice 1)) 1
  /\ 0 <= progress (mkSession 1 "Solo" 200 1 1 "open" None)
  /\ (Z.of_nat (List.length (session_submissions store_twice 1)) <= 1 ->
      progress (mkSession 1 "Solo" 200 1 1 "open" None) <= 100)
  /\ (progress (mkSession 1 "Solo" 200 1 1 "open" None) <= 100
      <-> 1 <= 0
          \/ 200 * Z.of_nat (List.length (session_submissions store_twice 1))
             <= 201 * 1).
Proof.
  assert (Hreach : reachable store_twice) by (apply reachable_run; constructor).
  split; [exact Hreach|]. split; [left; reflexivity|].
  apply (@progress_bounds store_twice
           (mkSession 1 "Solo" 200 1 1 "open" None) Hreach).
  left. reflexivity.
Defined.

(** C3, refuted as stated: alice submits twice to a session opened for one
    participant; both submissions are accepted and the stored progress is
    200. *)
Lemma progress_exceeds_100 :
  reachable store_twice
  /\ get_session store_twice 1
     = Some (mkSession 1 "Solo" 200 1 1 "open" None)
  /\ ~ (0 <= progress (mkSession 1 "Solo" 200 1 1 "open" None) <= 100).
Proof.
  split; [apply reachable_run; constructor|].
  split; [reflexivity|cbn [progress]; lia].
Qed.

(** C4, as the code behaves: when the session exists, an unknown participant
    name makes the submit fail with the 404 "User not found", nothing being
    written (no participant is created, no submission recorded); a known
    participant's submission is recorded, the participants staying as they
    were. *)
Theorem submit_restaurant_participant (rq : RestaurantSubmission)
    (db : Database) (sess : SessionRow) :
  get_session db (sub_session_id rq) = Some sess ->
  (get_user db (sub_user_name rq) = None ->
   submit_restaurant rq db = (db, inl (HTTPException 404 "User not found")))
  /\ (forall u, get_user db (sub_user_name rq) = Some u ->
      exists db' i rid,
        submit_restaurant rq db
        = (db', inr (mkSubmitReply "Restaurant submitted successfully"))
        /\ users_table db' = users_table db
        /\ user_session_restaurants_table db'
           = user_session_restaurants_table db
             ++ [mkSubmission i (user_id u) (sub_session_id rq) rid]).
Proof.
  intros Hsess. split.
  - intros Hu. exact (submit_unknown_user rq db Hsess Hu).
  - intros u Hu. rewrite (submit_accepted rq db Hsess Hu).
    destruct (with_restaurant (sub_restaurant_name rq) db) as [db1 rid] eqn:Hw.
    destruct (with_restaurant_tables _ _ Hw) as [_ [Eu Ex]].
    eexists _, (next_rowid (map usr_id (user_session_restaurants_table db1))),
      rid.
    split; [reflexivity|]. split; [exact Eu|].
    unfold store_progress, recorded, insert_submission, update_sessions,
      set_sessions, set_submissions.
    cbn [fst user_session_restaurants_table]. now rewrite Ex.
Qed.

Lemma submit_restaurant_participant_witness :
  get_session store_open 1 = Some (mkSession 1 "Dinner" 0 2 1 "open" None)
  /\ (get_user store_open "bob" = None ->
   submit_restaurant (mkRestaurantSubmission 1 "Sushi Bar" "bob") store_open
   = (store_open, inl (HTTPException 404 "User not found")))
  /\ (forall u, get_user store_open "bob" = Some u ->
      exists db' i rid,
        submit_restaurant (mkRestaurantSubmission 1 "Sushi Bar" "bob") store_open
        = (db', inr (mkSubmitReply "Restaurant submitted successfully"))
        /\ users_table db' = users_table store_open
        /\ user_session_restaurants_table db'
           = user_session_restaurants_table store_open
             ++ [mkSubmission i (user_id u) 1 rid]).
Proof.
  split; [reflexivity|].
  apply (submit_restaurant_participant
           (mkRestaurantSubmission 1 "Sushi Bar" "bob") store_open
           (sess := mkSession 1 "Dinner" 0 2 1 "open" None)).
  reflexivity.
Defined.

(** C4, refuted as stated: "Dinner" exists and nobody named bob is known;
    bob's submission is turned down with the 404 "User not found", and the
    store is left as it was, without a participant bob and without the
    submission. *)
Lemma submit_restaurant_unknown_participant_fails :
  get_session store_open 1 = Some (mkSession 1 "Dinner" 0 2 1 "open" None)
  /\ get_user store_open "bob" = None
  /\ submit_restaurant (mkRestaurantSubmission 1 "Sushi Bar" "bob") store_open
     = (store_open, inl (HTTPException 404 "User not found"))
  /\ users_table store_open = [mkUser 1 "alice"]
  /\ user_session_restaurants_table store_open = [].
Proof. repeat split. Qed.

(** * Checking a submission *)

Section Growth.

Lemma extends_refl (db : Database) : extends db db.
Proof. repeat split; exists []; now rewrite app_nil_r. Qed.

Lemma extends_same (db db' : Database) :
  users_table db' = users_table db ->
  restaurants_table db' = restaurants_table db ->
  user_session_restaurants_table db' = user_session_restaurants_table db ->
  extends db db'.
Proof.
  intros Eu Er Ex. unfold extends. rewrite Eu, Er, Ex. apply extends_refl.
Qed.

Lemma login_extends (rq : LoginRequest) (db : Database) :
  extends db (fst (login rq db)).
Proof.
  destruct (login_tables db rq) as [_ [Er Ex]].
  unfold extends. rewrite Er, Ex.
  split; [|split; exists []; now rewrite app_nil_r].
  unfold login. step_handler.
  destruct (find _ (users_table db)); cbn; eexists.
  - symmetry. apply app_nil_r.
  - reflexivity.
Qed.

Lemma create_session_extends (rq : CreateSessionRequest) (db : Database) :
  extends db (fst (create_session rq db)).
Proof.
  destruct (create_session_tables db rq) as [_ [Er Ex]].
  unfold extends. rewrite Er, Ex.
  split; [|split; exists []; now rewrite app_nil_r].
  unfold create_session. step_handler. unfold bind_int.
  destruct (find _ (users_table db)), (int64 (session_participants rq));
    cbn; eexists; try reflexivity; symmetry; apply app_nil_r.
Qed.

Lemma end_session_extends (rnd : nat) (sid : Z) (db : Database) :
  extends db (fst (end_session rnd sid db)).
Proof.
  destruct (get_session db sid) as [s|] eqn:Hs;
    [|rewrite end_session_unknown by assumption; apply extends_refl].
  destruct (session_submissions db sid) as [|x l] eqn:Hx.
  - rewrite (end_session_empty rnd _ _ Hs Hx). now apply extends_same.
  - destruct (get_restaurant db (usr_restaurant_id (drawn rnd x l)))
      as [r|] eqn:Hr.
    + rewrite (end_session_drawn rnd _ _ Hs Hx Hr). now apply extends_same.
    + rewrite (end_session_dangling rnd _ _ Hs Hx Hr). now apply extends_same.
Qed.

Lemma submit_restaurant_extends (rq : RestaurantSubmission) (db : Database) :
  extends db (fst (submit_restaurant rq db)).
Proof.
  destruct (get_session db (sub_session_id rq)) as [sess|] eqn:Hsess;
    [|rewrite submit_unknown_session by assumption; apply extends_refl].
  destruct (get_user db (sub_user_name rq)) as [u|] eqn:Hu;
    [|rewrite (submit_unknown_user _ _ Hsess Hu); apply extends_refl].
  rewrite (submit_accepted _ _ Hsess Hu).
  destruct (with_restaurant_cases (sub_restaurant_name rq) db)
    as [[r [_ Heq]]|[_ Heq]]; rewrite Heq; cbn.
  - split; [|split]; eexists; try reflexivity; symmetry; apply app_nil_r.
  - split; [|split]; eexists; try reflexivity; symmetry; apply app_nil_r.
Qed.

Lemma handle_extends (rq : request) (db : Database) :
  extends db (handle rq db).
Proof.
  destruct rq; cbn [handle].
  - apply login_extends.
  - apply create_session_extends.
  - apply end_session_extends.
  - apply submit_restaurant_extends.
Qed.

(** Session ids are kept by every handler, so an id that could be bound
    can be bound in every later store. *)
Lemma session_id_fits_iff (db : Database) (sid : Z) :
  session_id_fits db sid = true
  <-> int64 sid = true \/ In sid (map session_id (sessions_table db)).
Proof.
  unfold session_id_fits. rewrite orb_true_iff, existsb_exists, in_map_iff.
  split; (intros [H|[s H]]; [now left|right; exists s]).
  - destruct H as [Hin Hk]. apply Z.eqb_eq in Hk. tauto.
  - destruct H as [Hk Hin]. apply Z.eqb_eq in Hk. tauto.
Qed.

Lemma update_sessions_ids (p : SessionRow -> bool)
    (f : SessionRow -> SessionRow) (db : Database) :
  (forall s, session_id (f s) = session_id s) ->
  map session_id (sessions_table (fst (update_sessions p f db)))
  = map session_id (sessions_table db).
Proof.
  intros Hf. cbn [update_sessions set_sessions fst sessions_table].
  rewrite map_map. apply map_ext. intros s.
  destruct (p s); [apply Hf|reflexivity].
Qed.

Lemma end_session_ids (rnd : nat) (sid : Z) (db : Database) :
  map session_id (sessions_table (fst (end_session rnd sid db)))
  = map session_id (sessions_table db).
Proof.
  assert (Hc : map session_id (sessions_table (mark_closed sid db))
               = map session_id (sessions_table db))
    by (unfold mark_closed; now apply update_sessions_ids).
  destruct (get_session db sid) as [s|] eqn:Hs;
    [|now rewrite end_session_unknown].
  destruct (session_submissions db sid) as [|x l] eqn:Hx.
  - now rewrite (end_session_empty rnd _ _ Hs Hx).
  - destruct (get_restaurant db (usr_restaurant_id (drawn rnd x l)))
      as [r|] eqn:Hr.
    + rewrite (end_session_drawn rnd _ _ Hs Hx Hr). cbn [fst].
      unfold store_result. now rewrite update_sessions_ids.
    + now rewrite (end_session_dangling rnd _ _ Hs Hx Hr).
Qed.

Lemma submit_restaurant_ids (rq : RestaurantSubmission) (db : Database) :
  map session_id (sessions_table (fst (submit_restaurant rq db)))
  = map session_id (sessions_table db).
Proof.
  destruct (get_session db (sub_session_id rq)) as [sess|] eqn:Hsess;
    [|now rewrite submit_unknown_session].
  destruct (get_user db (sub_user_name rq)) as [u|] eqn:Hu;
    [|now rewrite (submit_unknown_user _ _ Hsess Hu)].
  rewrite (submit_accepted _ _ Hsess Hu).
  destruct (with_restaurant (sub_restaurant_name rq) db) as [db1 rid] eqn:Hw.
  cbn [fst]. unfold store_progress.
  rewrite update_sessions_ids by reflexivity.
  cbn [recorded insert_submission set_submissions fst sessions_table].
  unfold with_restaurant in Hw.
  destruct (get_restaurant_by_name db (sub_restaurant_name rq));
    injection Hw as <- _; reflexivity.
Qed.

Lemma handle_session_id_fits (rq : request) (db : Database) (sid : Z) :
  session_id_fits db sid = true -> session_id_fits (handle rq db) sid = true.
Proof.
  rewrite !session_id_fits_iff. intros [H|H]; [now left|right].
  destruct rq as [rq|rq|rnd sid0|rq]; cbn [handle].
  - destruct (login_tables db rq) as [Es _]. now rewrite Es.
  - destruct (create_session_tables db rq) as [[Es|[owner Es]] _]; rewrite Es;
      [assumption|].
    rewrite map_app. apply in_or_app. now left.
  - now rewrite end_session_ids.
  - now rewrite submit_restaurant_ids.
Qed.

(** A positive reply of the check stays the same in every later store. *)
Lemma check_submission_stable (sid : Z) (uname : string) (n : string)
    (db db' : Database) :
  extends db db' ->
  (session_id_fits db sid = true -> session_id_fits db' sid = true) ->
  check_submission sid uname db
  = (db, inr (mkCheckSubmissionReply true (Some n))) ->
  check_submission sid uname db'
  = (db', inr (mkCheckSubmissionReply true (Some n))).
Proof.
  intros [[us Eu] [[rs Er] [xs Ex]]] Hfits Hc.
  apply check_submission_true_inv in Hc.
  destruct Hc as [u [x [r [Hu [Hfit [Hx [Hr <-]]]]]]].
  apply check_submission_first with (u := u) (x := x).
  - unfold get_user in *. rewrite Eu. now apply find_app_some.
  - now apply Hfits.
  - rewrite Ex. now apply find_app_some.
  - unfold get_restaurant in *. rewrite Er. now apply find_app_some.
Qed.

Lemma check_submission_stable_run (sid : Z) (uname : string) (n : string)
    (rqs : list request) (db : Database) :
  check_submission sid uname db
  = (db, inr (mkCheckSubmissionReply true (Some n))) ->
  check_submission sid uname (run rqs db)
  = (run rqs db, inr (mkCheckSubmissionReply true (Some n))).
Proof.
  revert db. induction rqs as [|rq rqs IH]; intros db Hc; [exact Hc|].
  cbn [run fold_left]. apply IH.
  apply check_submission_stable with (db := db);
    [apply handle_extends|apply handle_session_id_fits|exact Hc].
Qed.

End Growth.

(** C8: on a reachable store, for an existing session and a known
    participant without a submission in the session, the check replies
    submitted=false; and once a submission of that participant to that
    session has been accepted, the check replies submitted=true with the name
    of the restaurant submitted, right away and after any later requests. *)
Theorem check_submission_before_and_after (sid : Z) (uname : string)
    (db : Database) (s : SessionRow) (u : UserRow) :
  reachable db ->
  get_session db sid = Some s ->
  get_user db uname = Some u ->
  user_submissions db sid (user_id u) = [] ->
  check_submission sid uname db = (db, inr (mkCheckSubmissionReply false None))
  /\ (forall rname db' reply rqs,
        submit_restaurant (mkRestaurantSubmission sid rname uname) db
        = (db', inr reply) ->
        check_submission sid uname (run rqs db')
        = (run rqs db', inr (mkCheckSubmissionReply true (Some rname)))).
Proof.
  intros Hreach Hs Hu Hnil. apply reachable_well_formed in Hreach.
  pose proof (session_id_fits_found _ _ Hs) as Hfit.
  split; [exact (check_submission_none sid uname db Hu Hfit Hnil)|].
  intros rname db' reply rqs Hsub.
  apply check_submission_stable_run.
  assert (Hfit' : session_id_fits db' sid = true).
  { replace db'
      with (handle (SubmitRestaurant (mkRestaurantSubmission sid rname uname))
                   db) by (cbn [handle]; now rewrite Hsub).
    now apply handle_session_id_fits. }
  destruct (submit_accepted_store _ _ Hsub)
    as [sess [u' [db1 [rid [Hsess [Hu' [Hw ->]]]]]]].
  cbn [sub_session_id sub_user_name sub_restaurant_name] in *.
  assert (u' = u) as -> by congruence.
  destruct (with_restaurant_tables _ _ Hw) as [_ [Eu Ex]].
  destruct (with_restaurant_lookup _ _ (wf_restaurant_ids Hreach) Hw)
    as [r [Hr Hname]].
  set (p := progress_of _ _) in *.
  set (i := next_rowid (map usr_id (user_session_restaurants_table db1))).
  rewrite <- Hname.
  apply check_submission_found
    with (u := u) (x := mkSubmission i (user_id u) sid rid) (l := []).
  - unfold get_user in *.
    change (users_table (store_progress sid p (recorded (user_id u) sid rid db1)))
      with (users_table db1).
    now rewrite Eu.
  - exact Hfit'.
  - unfold user_submissions in *.
    change (user_session_restaurants_table
              (store_progress sid p (recorded (user_id u) sid rid db1)))
      with (user_session_restaurants_table db1
            ++ [mkSubmission i (user_id u) sid rid]).
    rewrite filter_app, Ex, Hnil.
    cbn [filter usr_session_id usr_user_id]. now rewrite !Z.eqb_refl.
  - exact Hr.
Qed.

Lemma check_submission_before_and_after_witness :
  reachable store_open
  /\ get_session store_open 1 = Some (mkSession 1 "Dinner" 0 2 1 "open" None)
  /\ get_user store_open "alice" = Some (mkUser 1 "alice")
  /\ user_submissions store_open 1 1 = []
  /\ submit_restaurant (mkRestaurantSubmission 1 "Pizza Place" "alice")
       store_open
     = (fst (submit_restaurant (mkRestaurantSubmission 1 "Pizza Place" "alice")
               store_open),
        inr (mkSubmitReply "Restaurant submitted successfully"))
  /\ check_submission 1 "alice" store_open
     = (store_open, inr (mkCheckSubmissionReply false None))
  /\ check_submission 1 "alice"
       (run [SubmitRestaurant (mkRestaurantSubmission 1 "Sushi Bar" "alice");
             EndSession 0 1]
            (fst (submit_restaurant
                    (mkRestaurantSubmission 1 "Pizza Place" "alice")
                    store_open)))
     = (run [SubmitRestaurant (mkRestaurantSubmission 1 "Sushi Bar" "alice");
             EndSession 0 1]
            (fst (submit_restaurant
                    (mkRestaurantSubmission 1 "Pizza Place" "alice")
                    store_open)),
        inr (mkCheckSubmissionReply true (Some "Pizza Place"))).
Proof.
  assert (Hreach : reachable store_open) by (apply reachable_run; constructor).
  split; [exact Hreach|]. split; [reflexivity|]. split; [reflexivity|].
  split; [reflexivity|]. split; [reflexivity|].
  destruct (@check_submission_before_and_after 1 "alice" store_open
              (mkSession 1 "Dinner" 0 2 1 "open" None) (mkUser 1 "alice")
              Hreach eq_refl eq_refl eq_refl) as [Hbefore Hafter].
  split; [exact Hbefore|].
  apply (Hafter "Pizza Place"
           (fst (submit_restaurant
                   (mkRestaurantSubmission 1 "Pizza Place" "alice") store_open))
           (mkSubmitReply "Restaurant submitted successfully")).
  reflexivity.
Defined.

(** C10, as the code behaves: on a reachable store, the check does not look
    the session up: for a session id of the signed 64-bit range that
    resolves to no session and the name of a known participant it succeeds
    and replies submitted=false. *)
Theorem check_submission_unknown_session (sid : Z) (uname : string)
    (db : Database) (u : UserRow) :
  reachable db ->
  int64 sid = true ->
  get_session db sid = None ->
  get_user db uname = Some u ->
  check_submission sid uname db = (db, inr (mkCheckSubmissionReply false None)).
Proof.
  intros Hreach Hfit Hs Hu. apply reachable_well_formed in Hreach.
  apply check_submission_none with (u := u);
    [exact Hu|now apply session_id_fits_int64|].
  unfold user_submissions.
  destruct (filter _ _) as [|x l] eqn:Hf; [reflexivity|].
  assert (Hin : In x (x :: l)) by now left.
  rewrite <- Hf in Hin. apply filter_In in Hin. destruct Hin as [Hin Hk].
  apply andb_prop in Hk. destruct Hk as [Hk _]. apply Z.eqb_eq in Hk.
  apply (wf_submission_session Hreach) in Hin. rewrite Hk in Hin.
  unfold get_session in Hs. apply find_key_none in Hs. contradiction.
Qed.

Lemma check_submission_unknown_session_witness :
  reachable store_voted
  /\ int64 7 = true
  /\ get_session store_voted 7 = None
  /\ get_user store_voted "bob" = Some (mkUser 2 "bob")
  /\ check_submission 7 "bob" store_voted
     = (store_voted, inr (mkCheckSubmissionReply false None)).
Proof.
  assert (Hreach : reachable store_voted)
    by (apply reachable_run; apply (reachable_run [dinner]); constructor).
  split; [exact Hreach|]. split; [reflexivity|]. split; [reflexivity|].
  split; [reflexivity|].
  apply (@check_submission_unknown_session 7 "bob" store_voted
           (mkUser 2 "bob") Hreach); reflexivity.
Defined.

(** C10, refuted as stated: no session is stored under the id [2^63] and bob
    is a known participant, yet the check does not reply submitted=false: the
    id cannot be bound and the request ends in OverflowError. *)
Lemma check_submission_out_of_range :
  reachable store_voted
  /\ get_session store_voted 9223372036854775808 = None
  /\ get_user store_voted "bob" = Some (mkUser 2 "bob")
  /\ check_submission 9223372036854775808 "bob" store_voted
     = (store_voted, inl OverflowError).
Proof.
  split; [|repeat split].
  apply reachable_run. apply (reachable_run [dinner]). constructor.
Qed.


(** * Further properties of the handlers *)

(** ** Lookups by name *)

Section NameLookups.

Variables (R : Type) (key : R -> string).

Lemma find_name_in (l : list R) (k : string) (r : R) :
  find (fun x => (key x =? k)%string) l = Some r -> In r l /\ key r = k.
Proof.
  intros Hf. apply find_some in Hf. destruct Hf as [Hin Hk].
  split; [assumption|]. now apply String.eqb_eq.
Qed.

Lemma find_name_none (l : list R) (k : string) :
  find (fun x => (key x =? k)%string) l = None <-> ~ In k (map key l).
Proof.
  split.
  - intros Hf Hin. apply in_map_iff in Hin. destruct Hin as [x [Hk Hin]].
    pose proof (find_none _ _ Hf x Hin) as Hx. simpl in Hx.
    apply String.eqb_neq in Hx. congruence.
  - intros Hnot. destruct (find _ l) as [r|] eqn:Hf; [|reflexivity].
    apply find_name_in in Hf. destruct Hf as [Hin <-].
    exfalso. apply Hnot. now apply in_map.
Qed.

Lemma find_name_unique (l : list R) (r : R) :
  NoDup (map key l) -> In r l ->
  find (fun x => (key x =? key r)%string) l = Some r.
Proof.
  induction l as [|a l IH]; simpl; [tauto|].
  intros Hnd Hin. inversion Hnd as [|? ? Hnotin Hnd']; subst.
  destruct Hin as [->|Hin].
  - now rewrite String.eqb_refl.
  - destruct (key a =? key r)%string eqn:Hk; [|now apply IH].
    apply String.eqb_eq in Hk. exfalso. apply Hnotin. rewrite Hk.
    now apply in_map.
Qed.

Lemma NoDup_snoc (l : list string) (k : string) :
  NoDup l -> ~ In k l -> NoDup (l ++ [k]).
Proof.
  intros Hnd Hk. apply NoDup_app; [assumption|repeat constructor; simpl; tauto|].
  intros x Hx [<-|[]]. contradiction.
Qed.

End NameLookups.

(** ** Resolving a participant *)

Section Directory.

Variable db : Database.

Lemma with_user_cases (uname : string) :
  (exists u, get_user db uname = Some u
             /\ with_user uname db = (db, user_id u))
  \/ (get_user db uname = None
      /\ with_user uname db
         = (set_users
              (users_table db
               ++ [mkUser (next_rowid (map user_id (users_table db))) uname])
              db,
            next_rowid (map user_id (users_table db)))).
Proof.
  unfold with_user.
  destruct (get_user db uname) as [u|]; [left|right]; eauto.
Qed.

(** After the lookup-or-insert the name resolves to the returned id. *)
Lemma with_user_lookup (uname : string) (db1 : Database) (uid : Z) :
  with_user uname db = (db1, uid) ->
  get_user db1 uname = Some (mkUser uid uname).
Proof.
  intros Hw.
  destruct (with_user_cases uname) as [[u [Hu Heq]]|[Hu Heq]];
    rewrite Heq in Hw; injection Hw as <- <-.
  - rewrite Hu. apply find_name_in in Hu. destruct Hu as [_ <-].
    now destruct u.
  - unfold get_user in *. cbn [set_users users_table].
    rewrite find_app_none by assumption.
    cbn [find user_name]. now rewrite String.eqb_refl.
Qed.

Lemma with_user_tables (uname : string) (db1 : Database) (uid : Z) :
  with_user uname db = (db1, uid) ->
  sessions_table db1 = sessions_table db
  /\ restaurants_table db1 = restaurants_table db
  /\ user_session_restaurants_table db1 = user_session_restaurants_table db
  /\ exists us, users_table db1 = users_table db ++ us.
Proof.
  intros Hw.
  destruct (with_user_cases uname) as [[u [_ Heq]]|[_ Heq]];
    rewrite Heq in Hw; injection Hw as <- <-; repeat split;
    eexists; try reflexivity; symmetry; apply app_nil_r.
Qed.

Lemma login_with_user (rq : LoginRequest) :
  login rq db
  = (let (db1, uid) := with_user (username rq) db in
     (db1, inr (mkLoginReply uid (username rq)))).
Proof.
  unfold login, with_user, get_user. step_handler.
  destruct (find _ (users_table db)) as [u|] eqn:Hu; [|reflexivity].
  apply find_name_in in Hu. destruct Hu as [_ ->]. reflexivity.
Qed.

Lemma create_session_with_user (rq : CreateSessionRequest) :
  create_session rq db
  = (let (db1, owner) := with_user (owner_name rq) db in
     if int64 (session_participants rq)
     then (opened rq owner db1,
           inr (mkCreateSessionReply
                  (next_rowid (map session_id (sessions_table db)))
                  (name rq) owner))
     else (db1, inl OverflowError)).
Proof.
  unfold create_session, with_user, get_user. step_handler. unfold bind_int.
  destruct (find _ (users_table db)) as [u|],
    (int64 (session_participants rq)); reflexivity.
Qed.

End Directory.

(** ** Every handler keeps the store consistent *)

Section Consistency.

Lemma result_submitted_grow (db db' : Database) (s : SessionRow) :
  (exists rs, restaurants_table db' = restaurants_table db ++ rs) ->
  (exists xs, user_session_restaurants_table db'
              = user_session_restaurants_table db ++ xs) ->
  result_submitted db s -> result_submitted db' s.
Proof.
  intros [rs Er] [xs Ex] Hres n Hn.
  destruct (Hres n Hn) as [Hst [x [r [Hin [Hr Hname]]]]].
  split; [exact Hst|]. exists x, r. repeat split; try assumption.
  - unfold session_submissions in *. rewrite Ex, filter_app.
    apply in_or_app. now left.
  - unfold get_restaurant in *. rewrite Er. now apply find_app_some.
Qed.

Lemma consistent_empty : consistent empty_database.
Proof.
  constructor; cbn; try constructor; intros; contradiction.
Qed.

Lemma consistent_with_user (uname : string) (db db1 : Database) (uid : Z) :
  consistent db ->
  with_user uname db = (db1, uid) ->
  consistent db1 /\ In uid (map user_id (users_table db1)).
Proof.
  intros Hc Hw.
  destruct (with_user_cases db uname) as [[u [Hu Heq]]|[Hu Heq]];
    rewrite Heq in Hw; injection Hw as <- <-.
  - split; [exact Hc|]. apply find_name_in in Hu. apply in_map. tauto.
  - destruct Hc as [Hui Hun Hrn How Hsu Hst Hre].
    split.
    + constructor; try assumption; cbn [set_users users_table sessions_table
        user_session_restaurants_table restaurants_table].
      * rewrite map_app. cbn [map user_id]. now apply NoDup_snoc_fresh.
      * rewrite map_app. cbn [map user_name]. apply NoDup_snoc; [assumption|].
        now apply find_name_none.
      * intros s Hs. rewrite map_app. apply in_or_app. left. now apply How.
      * intros x Hx. rewrite map_app. apply in_or_app. left. now apply Hsu.
    + cbn [set_users users_table]. rewrite map_app. apply in_or_app.
      right. now left.
Qed.

Lemma consistent_opened (rq : CreateSessionRequest) (owner : Z)
    (db : Database) :
  consistent db ->
  In owner (map user_id (users_table db)) ->
  consistent (opened rq owner db).
Proof.
  intros [Hui Hun Hrn How Hsu Hst Hre] Hin.
  constructor; try assumption;
    cbn [opened insert_session set_sessions fst sessions_table users_table].
  - intros s Hs. apply in_app_or in Hs. destruct Hs as [Hs|[<-|[]]].
    + now apply How.
    + exact Hin.
  - intros s Hs. apply in_app_or in Hs. destruct Hs as [Hs|[<-|[]]].
    + now apply Hst.
    + now left.
  - intros s Hs. apply in_app_or in Hs. destruct Hs as [Hs|[<-|[]]].
    + exact (Hre s Hs).
    + intros n Hn. discriminate Hn.
Qed.

Lemma consistent_update_sessions (sid : Z) (f : SessionRow -> SessionRow)
    (db : Database) :
  consistent db ->
  (forall s, session_id (f s) = session_id s) ->
  (forall s, owner_id (f s) = owner_id s) ->
  (forall s, In s (sessions_table db) -> session_id s = sid ->
             (status (f s) = "open" \/ status (f s) = "closed")
             /\ result_submitted db (f s)) ->
  consistent (fst (update_sessions (fun s => session_id s =? sid) f db)).
Proof.
  intros [Hui Hun Hrn How Hsu Hst Hre] Hid Hown Hf.
  constructor; try assumption;
    cbn [update_sessions set_sessions fst sessions_table users_table].
  - intros s' Hs'. apply in_map_iff in Hs'. destruct Hs' as [s [<- Hs]].
    destruct (session_id s =? sid); [rewrite Hown|]; now apply How.
  - intros s' Hs'. apply in_map_iff in Hs'. destruct Hs' as [s [<- Hs]].
    destruct (session_id s =? sid) eqn:Hk; [|now apply Hst].
    apply Z.eqb_eq in Hk. now apply Hf.
  - intros s' Hs'. apply in_map_iff in Hs'. destruct Hs' as [s [<- Hs]].
    destruct (session_id s =? sid) eqn:Hk; [|exact (Hre s Hs)].
    apply Z.eqb_eq in Hk. exact (proj2 (Hf s Hs Hk)).
Qed.

Lemma consistent_mark_closed (sid : Z) (db : Database) :
  consistent db -> consistent (mark_closed sid db).
Proof.
  intros Hc. apply consistent_update_sessions; try assumption; try reflexivity.
  intros s Hs _. split; [now right|].
  intros n Hn. pose proof (cs_result Hc s Hs) as Hre.
  destruct (Hre n Hn) as [_ Hx].
  split; [reflexivity|exact Hx].
Qed.

Lemma mark_closed_status (sid : Z) (db : Database) (s : SessionRow) :
  In s (sessions_table (mark_closed sid db)) ->
  session_id s = sid -> status s = "closed".
Proof.
  cbn. intros Hs Hid. apply in_map_iff in Hs. destruct Hs as [s0 [<- Hs0]].
  destruct (session_id s0 =? sid) eqn:Hk; [reflexivity|].
  apply Z.eqb_neq in Hk. contradiction.
Qed.

Lemma consistent_store_result (sid : Z) (n : string) (db : Database) :
  consistent db ->
  (forall s, In s (sessions_table db) -> session_id s = sid ->
             status s = "closed") ->
  (exists x r, In x (session_submissions db sid)
               /\ get_restaurant db (usr_restaurant_id x) = Some r
               /\ restaurant_name r = n) ->
  consistent (store_result sid n db).
Proof.
  intros Hc Hclosed Hx.
  apply consistent_update_sessions; try assumption; try reflexivity.
  intros s Hs Hid. cbn [with_result status].
  split; [right; now apply Hclosed|].
  intros n' Hn'. cbn [with_result result status session_id] in *.
  injection Hn' as <-. split; [now apply Hclosed|]. now rewrite Hid.
Qed.

Lemma consistent_with_restaurant (rname : string) (db db1 : Database)
    (rid : Z) :
  consistent db ->
  with_restaurant rname db = (db1, rid) ->
  consistent db1.
Proof.
  intros Hc Hw.
  destruct (with_restaurant_cases rname db) as [[r [Hr Heq]]|[Hr Heq]];
    rewrite Heq in Hw; injection Hw as <- <-; [exact Hc|].
  pose proof (cs_result Hc) as Hre.
  destruct Hc as [Hui Hun Hrn How Hsu Hst _].
  constructor; try assumption;
    cbn [set_restaurants restaurants_table sessions_table].
  - rewrite map_app. cbn [map restaurant_name]. apply NoDup_snoc; [assumption|].
    now apply find_name_none.
  - intros s Hs. apply (result_submitted_grow (db := db)).
    + cbn. eexists. reflexivity.
    + exists []. cbn. now rewrite app_nil_r.
    + now apply Hre.
Qed.

Lemma consistent_recorded (uid sid rid : Z) (db : Database) :
  consistent db ->
  In uid (map user_id (users_table db)) ->
  consistent (recorded uid sid rid db).
Proof.
  intros Hc Hin.
  pose proof (cs_result Hc) as Hre.
  destruct Hc as [Hui Hun Hrn How Hsu Hst _].
  constructor; try assumption;
    cbn [recorded insert_submission set_submissions fst
         user_session_restaurants_table sessions_table users_table].
  - intros x Hx. apply in_app_or in Hx. destruct Hx as [Hx|[<-|[]]].
    + now apply Hsu.
    + exact Hin.
  - intros s Hs. apply (result_submitted_grow (db := db)).
    + exists []. cbn. now rewrite app_nil_r.
    + cbn. eexists. reflexivity.
    + now apply Hre.
Qed.

Lemma consistent_store_progress (sid p : Z) (db : Database) :
  consistent db -> consistent (store_progress sid p db).
Proof.
  intros Hc. apply consistent_update_sessions; try assumption; try reflexivity.
  intros s Hs _. split.
  - exact (cs_status Hc s Hs).
  - exact (cs_result Hc s Hs).
Qed.

Lemma consistent_login (rq : LoginRequest) (db : Database) :
  consistent db -> consistent (fst (login rq db)).
Proof.
  intros Hc. rewrite login_with_user.
  destruct (with_user (username rq) db) as [db1 uid] eqn:Hw.
  exact (proj1 (consistent_with_user _ Hc Hw)).
Qed.

Lemma consistent_create_session (rq : CreateSessionRequest) (db : Database) :
  consistent db -> consistent (fst (create_session rq db)).
Proof.
  intros Hc. rewrite create_session_with_user.
  destruct (with_user (owner_name rq) db) as [db1 uid] eqn:Hw.
  destruct (consistent_with_user _ Hc Hw) as [Hc1 Hin].
  destruct (int64 (session_participants rq)); [|exact Hc1].
  now apply consistent_opened.
Qed.

Lemma consistent_end_session (rnd : nat) (sid : Z) (db : Database) :
  consistent db -> consistent (fst (end_session rnd sid db)).
Proof.
  intros Hc.
  destruct (get_session db sid) as [s|] eqn:Hs;
    [|now rewrite end_session_unknown].
  destruct (session_submissions db sid) as [|x l] eqn:Hx.
  - rewrite (end_session_empty rnd _ _ Hs Hx). now apply consistent_mark_closed.
  - destruct (get_restaurant db (usr_restaurant_id (drawn rnd x l)))
      as [r|] eqn:Hr.
    + rewrite (end_session_drawn rnd _ _ Hs Hx Hr). cbn [fst].
      apply consistent_store_result.
      * now apply consistent_mark_closed.
      * apply mark_closed_status.
      * exists (drawn rnd x l), r.
        change (session_submissions (mark_closed sid db) sid)
          with (session_submissions db sid).
        rewrite Hx. repeat split; [apply drawn_in|exact Hr].
    + rewrite (end_session_dangling rnd _ _ Hs Hx Hr).
      now apply consistent_mark_closed.
Qed.

Lemma consistent_submit_restaurant (rq : RestaurantSubmission)
    (db : Database) :
  consistent db -> consistent (fst (submit_restaurant rq db)).
Proof.
  intros Hc.
  destruct (get_session db (sub_session_id rq)) as [sess|] eqn:Hsess;
    [|now rewrite submit_unknown_session].
  destruct (get_user db (sub_user_name rq)) as [u|] eqn:Hu;
    [|now rewrite (submit_unknown_user _ _ Hsess Hu)].
  rewrite (submit_accepted _ _ Hsess Hu).
  destruct (with_restaurant (sub_restaurant_name rq) db) as [db1 rid] eqn:Hw.
  destruct (with_restaurant_tables _ _ Hw) as [_ [Eu _]].
  cbn [fst]. apply consistent_store_progress. apply consistent_recorded.
  - exact (consistent_with_restaurant _ Hc Hw).
  - rewrite Eu. apply find_name_in in Hu. apply in_map. tauto.
Qed.

Lemma consistent_handle (rq : request) (db : Database) :
  consistent db -> consistent (handle rq db).
Proof.
  destruct rq; cbn [handle].
  - apply consistent_login.
  - apply consistent_create_session.
  - apply consistent_end_session.
  - apply consistent_submit_restaurant.
Qed.

Lemma reachable_consistent (db : Database) :
  reachable db -> consistent db.
Proof.
  induction 1 as [|db rq _ IH].
  - exact consistent_empty.
  - now apply consistent_handle.
Qed.

End Consistency.

(** ** Growth along request sequences *)

Section RunGrowth.

Lemma extends_trans (db1 db2 db3 : Database) :
  extends db1 db2 -> extends db2 db3 -> extends db1 db3.
Proof.
  intros [[us Eu] [[rs Er] [xs Ex]]] [[us' Eu'] [[rs' Er'] [xs' Ex']]].
  repeat split.
  - exists (us ++ us'). now rewrite Eu', Eu, app_assoc.
  - exists (rs ++ rs'). now rewrite Er', Er, app_assoc.
  - exists (xs ++ xs'). now rewrite Ex', Ex, app_assoc.
Qed.

Lemma run_extends (rqs : list request) (db : Database) :
  extends db (run rqs db).
Proof.
  revert db. induction rqs as [|rq rqs IH]; intros db; [apply extends_refl|].
  cbn [run fold_left]. apply extends_trans with (db2 := handle rq db).
  - apply handle_extends.
  - apply IH.
Qed.

Lemma get_user_extends (db db' : Database) (uname : string) (u : UserRow) :
  extends db db' -> get_user db uname = Some u -> get_user db' uname = Some u.
Proof.
  intros [[us Eu] _] Hu. unfold get_user in *. rewrite Eu.
  now apply find_app_some.
Qed.

End RunGrowth.

(** ** Participants: [login], [create_session] and [get_user] *)

(** X1: [login] never fails and resolves the name: it replies with the
    requested name and an id under which the name is stored afterwards; a
    known name leaves the store untouched and yields the stored id, an unknown
    one appends exactly one participant row with an id not used before. *)
Theorem login_resolves_or_creates (rq : LoginRequest) (db : Database) :
  exists uid,
    login rq db = (fst (login rq db), inr (mkLoginReply uid (username rq)))
    /\ get_user (fst (login rq db)) (username rq)
       = Some (mkUser uid (username rq))
    /\ (forall u, get_user db (username rq) = Some u ->
                  fst (login rq db) = db /\ uid = user_id u)
    /\ (get_user db (username rq) = None ->
        fst (login rq db)
        = set_users (users_table db ++ [mkUser uid (username rq)]) db
        /\ ~ In uid (map user_id (users_table db))).
Proof.
  rewrite login_with_user.
  destruct (with_user (username rq) db) as [db1 uid] eqn:Hw.
  exists uid. cbn [fst].
  split; [reflexivity|]. split; [exact (with_user_lookup _ _ Hw)|].
  destruct (with_user_cases db (username rq)) as [[u [Hu Heq]]|[Hu Heq]];
    rewrite Heq in Hw; injection Hw as <- <-.
  - split; [|congruence]. intros u' Hu'. split; congruence.
  - split; [congruence|]. intros _. split; [reflexivity|].
    apply next_rowid_fresh.
Qed.

(** X2: logging in again with the same name changes nothing: the second
    [login] leaves the store of the first as it is and repeats its reply,
    whatever the password. *)
Theorem login_twice (rq : LoginRequest) (pw : string) (db : Database) :
  login (mkLoginRequest (username rq) pw) (fst (login rq db))
  = (fst (login rq db), snd (login rq db)).
Proof.
  rewrite !login_with_user. cbn [username].
  destruct (with_user (username rq) db) as [db1 uid] eqn:Hw. cbn [fst snd].
  pose proof (with_user_lookup _ _ Hw) as Hu.
  unfold with_user. rewrite Hu. reflexivity.
Qed.

(** X3: in every reachable store no two participants share a name or an
    id. *)
Theorem participants_unique (db : Database) :
  reachable db ->
  NoDup (map user_name (users_table db))
  /\ NoDup (map user_id (users_table db)).
Proof.
  intros Hreach. apply reachable_consistent in Hreach.
  split; [exact (cs_user_names Hreach)|exact (cs_user_ids Hreach)].
Qed.

Lemma participants_unique_witness :
  reachable store_voted
  /\ NoDup (map user_name (users_table store_voted))
  /\ NoDup (map user_id (users_table store_voted)).
Proof.
  assert (Hreach : reachable store_voted)
    by (apply reachable_run; apply (reachable_run [dinner]); constructor).
  split; [exact Hreach|]. exact (participants_unique Hreach).
Defined.

(** X4: [create_session] with a participant count of the signed 64-bit
    range succeeds.  It appends one session row, open, with progress 0, no
    result, the requested name and participant count and the owner's id,
    under an id not used before, which it returns; the owner's name resolves
    to the returned owner id afterwards; and every session stored before is
    found unchanged. *)
Theorem create_session_opens (rq : CreateSessionRequest) (db : Database) :
  int64 (session_participants rq) = true ->
  exists owner,
    let sid := next_rowid (map session_id (sessions_table db)) in
    let row := mkSession sid (name rq) 0 (session_participants rq) owner
                         "open" None in
    create_session rq db
    = (fst (create_session rq db),
       inr (mkCreateSessionReply sid (name rq) owner))
    /\ sessions_table (fst (create_session rq db)) = sessions_table db ++ [row]
    /\ ~ In sid (map session_id (sessions_table db))
    /\ get_session (fst (create_session rq db)) sid = Some row
    /\ get_user (fst (create_session rq db)) (owner_name rq)
       = Some (mkUser owner (owner_name rq))
    /\ (forall sid0 s, get_session db sid0 = Some s ->
                       get_session (fst (create_session rq db)) sid0 = Some s).
Proof.
  intros Hfit. rewrite create_session_with_user, Hfit.
  destruct (with_user (owner_name rq) db) as [db1 owner] eqn:Hw.
  destruct (with_user_tables _ _ Hw) as [Es _].
  exists owner. cbn zeta. cbn [fst].
  assert (Hss : sessions_table (opened rq owner db1)
                = sessions_table db
                  ++ [mkSession (next_rowid (map session_id (sessions_table db)))
                        (name rq) 0 (session_participants rq) owner "open" None]).
  { cbn [opened insert_session set_sessions fst sessions_table].
    now rewrite Es. }
  pose proof (next_rowid_fresh (map session_id (sessions_table db))) as Hfresh.
  split; [reflexivity|]. split; [exact Hss|]. split; [exact Hfresh|].
  split; [|split].
  - unfold get_session. rewrite Hss. rewrite find_app_none.
    + cbn [find session_id]. now rewrite Z.eqb_refl.
    + now apply find_key_none.
  - exact (with_user_lookup _ _ Hw).
  - intros sid0 s Hs. unfold get_session in *. rewrite Hss.
    now apply find_app_some.
Qed.

Lemma create_session_opens_witness :
  int64 3 = true
  /\ exists owner,
       let sid := next_rowid (map session_id (sessions_table store_voted)) in
       let row := mkSession sid "Lunch" 0 3 owner "open" None in
       create_session (mkCreateSessionRequest "Lunch" "carol" 3) store_voted
       = (fst (create_session (mkCreateSessionRequest "Lunch" "carol" 3)
                 store_voted),
          inr (mkCreateSessionReply sid "Lunch" owner))
       /\ sessions_table
            (fst (create_session (mkCreateSessionRequest "Lunch" "carol" 3)
                    store_voted))
          = sessions_table store_voted ++ [row]
       /\ ~ In sid (map session_id (sessions_table store_voted))
       /\ get_session
            (fst (create_session (mkCreateSessionRequest "Lunch" "carol" 3)
                    store_voted)) sid = Some row
       /\ get_user
            (fst (create_session (mkCreateSessionRequest "Lunch" "carol" 3)
                    store_voted)) "carol"
          = Some (mkUser owner "carol")
       /\ (forall sid0 s, get_session store_voted sid0 = Some s ->
              get_session
                (fst (create_session (mkCreateSessionRequest "Lunch" "carol" 3)
                        store_voted)) sid0 = Some s).
Proof.
  split; [reflexivity|].
  apply (@create_session_opens (mkCreateSessionRequest "Lunch" "carol" 3)
           store_voted).
  reflexivity.
Defined.

(** X5: the directory is shared: after a [create_session] with a participant
    count of the signed 64-bit range, a [login] under the owner's name
    creates nobody; it leaves the store as it is and replies with the owner
    id the session was created with. *)
Theorem login_after_create_session (rq : CreateSessionRequest) (pw : string)
    (db : Database) :
  int64 (session_participants rq) = true ->
  exists sid owner,
    snd (create_session rq db)
    = inr (mkCreateSessionReply sid (name rq) owner)
    /\ login (mkLoginRequest (owner_name rq) pw) (fst (create_session rq db))
       = (fst (create_session rq db),
          inr (mkLoginReply owner (owner_name rq))).
Proof.
  intros Hfit. rewrite create_session_with_user, Hfit.
  destruct (with_user (owner_name rq) db) as [db1 owner] eqn:Hw.
  exists (next_rowid (map session_id (sessions_table db))), owner.
  cbn [fst snd]. split; [reflexivity|].
  rewrite login_with_user. cbn [username].
  pose proof (with_user_lookup _ _ Hw) as Hu.
  unfold with_user.
  change (get_user (opened rq owner db1) (owner_name rq))
    with (get_user db1 (owner_name rq)).
  rewrite Hu. reflexivity.
Qed.

Lemma login_after_create_session_witness :
  int64 3 = true
  /\ exists sid owner,
       snd (create_session (mkCreateSessionRequest "Lunch" "carol" 3)
              store_voted)
       = inr (mkCreateSessionReply sid "Lunch" owner)
       /\ login (mkLoginRequest "carol" "secret")
            (fst (create_session (mkCreateSessionRequest "Lunch" "carol" 3)
                    store_voted))
          = (fst (create_session (mkCreateSessionRequest "Lunch" "carol" 3)
                    store_voted),
             inr (mkLoginReply owner "carol")).
Proof.
  split; [reflexivity|].
  apply (@login_after_create_session
           (mkCreateSessionRequest "Lunch" "carol" 3) "secret" store_voted).
  reflexivity.
Defined.

(** X25: a [create_session] with a participant count outside the signed
    64-bit range fails with OverflowError when the session row is inserted:
    no session is added, but an owner who was unknown has already been stored
    as a participant. *)
Theorem create_session_overflow (rq : CreateSessionRequest) (db : Database) :
  int64 (session_participants rq) = false ->
  snd (create_session rq db) = inl OverflowError
  /\ sessions_table (fst (create_session rq db)) = sessions_table db
  /\ fst (create_session rq db)
     = fst (login (mkLoginRequest (owner_name rq) "") db).
Proof.
  intros Hfit. rewrite create_session_with_user, login_with_user, Hfit.
  cbn [username].
  destruct (with_user (owner_name rq) db) as [db1 owner] eqn:Hw.
  destruct (with_user_tables _ _ Hw) as [Es _].
  cbn [fst snd]. auto.
Qed.

Lemma create_session_overflow_witness :
  int64 9223372036854775808 = false
  /\ snd (create_session
            (mkCreateSessionRequest "Lunch" "carol" 9223372036854775808)
            store_voted) = inl OverflowError
  /\ sessions_table
       (fst (create_session
               (mkCreateSessionRequest "Lunch" "carol" 9223372036854775808)
               store_voted))
     = sessions_table store_voted
  /\ fst (create_session
            (mkCreateSessionRequest "Lunch" "carol" 9223372036854775808)
            store_voted)
     = fst (login (mkLoginRequest "carol" "") store_voted).
Proof.
  split; [reflexivity|].
  apply (@create_session_overflow
           (mkCreateSessionRequest "Lunch" "carol" 9223372036854775808)
           store_voted).
  reflexivity.
Defined.

(** X6: participants are never deleted or renamed: once a [login] has
    replied with an id, [get_user] under that name replies with that id and
    name in the store of the login and after any later requests. *)
Theorem get_user_after_login (rq : LoginRequest) (rqs : list request)
    (db : Database) :
  exists uid,
    snd (login rq db) = inr (mkLoginReply uid (username rq))
    /\ Api.get_user (username rq) (run rqs (fst (login rq db)))
       = (run rqs (fst (login rq db)), inr (mkUser uid (username rq))).
Proof.
  rewrite login_with_user.
  destruct (with_user (username rq) db) as [db1 uid] eqn:Hw.
  exists uid. cbn [fst snd]. split; [reflexivity|].
  pose proof (with_user_lookup _ _ Hw) as Hu.
  apply get_user_extends with (db' := run rqs db1) in Hu;
    [|apply run_extends].
  unfold Api.get_user, get_user in *. step_handler. now rewrite Hu.
Qed.

(** ** Session rows along the requests *)

Section SessionRows.

Lemma get_session_update_any (k : Z) (f : SessionRow -> SessionRow)
    (db : Database) (sid : Z) :
  (forall s, session_id (f s) = session_id s) ->
  get_session (fst (update_sessions (fun s => session_id s =? k) f db)) sid
  = option_map (fun s => if session_id s =? k then f s else s)
      (get_session db sid).
Proof.
  intros Hf. unfold get_session, update_sessions, set_sessions.
  cbn [fst sessions_table]. now apply find_map_upd.
Qed.

Lemma with_progress_self (s : SessionRow) : with_progress (progress s) s = s.
Proof. now destruct s. Qed.

End SessionRows.

Lemma submit_restaurant_session_row (rq : RestaurantSubmission)
    (db : Database) (sid : Z) (s : SessionRow) :
  get_session db sid = Some s ->
  exists s',
    get_session (fst (submit_restaurant rq db)) sid = Some s'
    /\ s' = with_progress (progress s') s
    /\ (sid <> sub_session_id rq -> s' = s).
Proof.
  intros Hs.
  assert (Hsame : exists s', get_session db sid = Some s'
                             /\ s' = with_progress (progress s') s
                             /\ (sid <> sub_session_id rq -> s' = s)).
  { exists s. rewrite with_progress_self. auto. }
  destruct (get_session db (sub_session_id rq)) as [sess|] eqn:Hsess;
    [|now rewrite submit_unknown_session].
  destruct (get_user db (sub_user_name rq)) as [u|] eqn:Hu;
    [|now rewrite (submit_unknown_user _ _ Hsess Hu)].
  clear Hsame. rewrite (submit_accepted _ _ Hsess Hu).
  destruct (with_restaurant (sub_restaurant_name rq) db) as [db1 rid] eqn:Hw.
  destruct (with_restaurant_tables _ _ Hw) as [Es _].
  cbn [fst]. unfold store_progress.
  rewrite get_session_update_any by reflexivity.
  set (p := progress_of _ _).
  assert (Hs1 : get_session (recorded (user_id u) (sub_session_id rq) rid db1)
                            sid = Some s).
  { unfold get_session in *. cbn [recorded insert_submission set_submissions
      fst sessions_table]. now rewrite Es. }
  rewrite Hs1. cbn [option_map].
  apply find_key_in in Hs. destruct Hs as [_ Hid]. rewrite Hid.
  destruct (sid =? sub_session_id rq) eqn:Hk.
  - exists (with_progress p s). repeat split.
    apply Z.eqb_eq in Hk. intros Hne. contradiction.
  - exists s. rewrite with_progress_self. auto.
Qed.

(** X7: a submission, accepted or not, touches nothing of a session but the
    progress, and only of the session submitted to: every session stored
    before is found afterwards with the same name, participant count, owner,
    status and result, and unchanged altogether when it is another
    session. *)
Theorem submit_restaurant_keeps_sessions (rq : RestaurantSubmission)
    (db : Database) (sid : Z) (s : SessionRow) :
  get_session db sid = Some s ->
  exists s',
    get_session (fst (submit_restaurant rq db)) sid = Some s'
    /\ s' = with_progress (progress s') s
    /\ (sid <> sub_session_id rq -> s' = s).
Proof. apply submit_restaurant_session_row. Qed.

Lemma submit_restaurant_keeps_sessions_witness :
  get_session store_closed 1
  = Some (mkSession 1 "Dinner" 100 2 1 "closed" (Some "Pizza Place"))
  /\ exists s',
       get_session
         (fst (submit_restaurant
                 (mkRestaurantSubmission 1 "Noodle Hut" "bob") store_closed)) 1
       = Some s'
       /\ s' = with_progress (progress s')
                 (mkSession 1 "Dinner" 100 2 1 "closed" (Some "Pizza Place"))
       /\ (1 <> 1 -> s' = mkSession 1 "Dinner" 100 2 1 "closed"
                            (Some "Pizza Place")).
Proof.
  split; [reflexivity|].
  apply (submit_restaurant_keeps_sessions
           (mkRestaurantSubmission 1 "Noodle Hut" "bob") store_closed 1).
  reflexivity.
Defined.

Lemma end_session_session_row (rnd : nat) (sid : Z) (db : Database)
    (sid' : Z) (s : SessionRow) :
  get_session db sid' = Some s ->
  exists s',
    get_session (fst (end_session rnd sid db)) sid' = Some s'
    /\ session_id s' = session_id s
    /\ session_name s' = session_name s
    /\ progress s' = progress s
    /\ expected_number_of_participants s' = expected_number_of_participants s
    /\ owner_id s' = owner_id s
    /\ (status s' = status s \/ status s' = "closed")
    /\ (sid' <> sid -> s' = s).
Proof.
  intros Hs.
  assert (Hid : session_id s = sid')
    by (apply find_key_in in Hs; tauto).
  assert (Hclosed : exists s',
             get_session (mark_closed sid db) sid' = Some s'
             /\ session_id s' = session_id s
             /\ session_name s' = session_name s
             /\ progress s' = progress s
             /\ expected_number_of_participants s'
                = expected_number_of_participants s
             /\ owner_id s' = owner_id s
             /\ (status s' = status s \/ status s' = "closed")
             /\ (sid' <> sid -> s' = s)).
  { unfold mark_closed. rewrite get_session_update_any by reflexivity.
    rewrite Hs. cbn [option_map]. rewrite Hid.
    destruct (sid' =? sid) eqn:Hk.
    - exists (with_status "closed" s). repeat split; auto.
      apply Z.eqb_eq in Hk. intros Hne. contradiction.
    - exists s. repeat split; auto. }
  destruct (get_session db sid) as [s0|] eqn:Hs0.
  - destruct (session_submissions db sid) as [|x l] eqn:Hx.
    + now rewrite (end_session_empty rnd _ _ Hs0 Hx).
    + destruct (get_restaurant db (usr_restaurant_id (drawn rnd x l)))
        as [r|] eqn:Hr.
      * rewrite (end_session_drawn rnd _ _ Hs0 Hx Hr). cbn [fst].
        destruct Hclosed as [s1 [Hs1 [H1 [H2 [H3 [H4 [H5 [H6 H7]]]]]]]].
        unfold store_result. rewrite get_session_update_any by reflexivity.
        rewrite Hs1. cbn [option_map]. rewrite H1, Hid.
        destruct (sid' =? sid) eqn:Hk.
        -- exists (with_result (restaurant_name r) s1).
           cbn [with_result session_id session_name progress
                expected_number_of_participants owner_id status].
           apply Z.eqb_eq in Hk.
           repeat split; auto; try congruence.
        -- exists s1. repeat split; auto; congruence.
      * now rewrite (end_session_dangling rnd _ _ Hs0 Hx Hr).
  - rewrite end_session_unknown by assumption. exists s. repeat split; auto.
Qed.

(** X8: a close, whatever its outcome, touches nothing of a session but
    status and result, and only of the session closed: every session stored
    before is found afterwards with the same name, progress, participant
    count and owner, with its status kept or turned to closed, and unchanged
    altogether when it is another session. *)
Theorem end_session_keeps_sessions (rnd : nat) (sid : Z) (db : Database)
    (sid' : Z) (s : SessionRow) :
  get_session db sid' = Some s ->
  exists s',
    get_session (fst (end_session rnd sid db)) sid' = Some s'
    /\ session_id s' = session_id s
    /\ session_name s' = session_name s
    /\ progress s' = progress s
    /\ expected_number_of_participants s' = expected_number_of_participants s
    /\ owner_id s' = owner_id s
    /\ (status s' = status s \/ status s' = "closed")
    /\ (sid' <> sid -> s' = s).
Proof. apply end_session_session_row. Qed.

Lemma end_session_keeps_sessions_witness :
  get_session store_voted 1 = Some (mkSession 1 "Dinner" 100 2 1 "open" None)
  /\ exists s',
       get_session (fst (end_session 1 1 store_voted)) 1 = Some s'
       /\ session_id s' = 1
       /\ session_name s' = "Dinner"
       /\ progress s' = 100
       /\ expected_number_of_participants s' = 2
       /\ owner_id s' = 1
       /\ (status s' = "open" \/ status s' = "closed")
       /\ (1 <> 1 -> s' = mkSession 1 "Dinner" 100 2 1 "open" None).
Proof.
  split; [reflexivity|].
  apply (end_session_keeps_sessions 1 1 store_voted 1
           (s := mkSession 1 "Dinner" 100 2 1 "open" None)).
  reflexivity.
Defined.

Section SessionsAlongRuns.

(** What a later store keeps of a session row. *)
Let kept (s s' : SessionRow) : Prop :=
  session_name s' = session_name s
  /\ expected_number_of_participants s' = expected_number_of_participants s
  /\ owner_id s' = owner_id s
  /\ (status s' = status s \/ status s' = "closed").

Lemma handle_session_row (rq : request) (db : Database) (sid : Z)
    (s : SessionRow) :
  get_session db sid = Some s ->
  exists s', get_session (handle rq db) sid = Some s' /\ kept s s'.
Proof.
  intros Hs. destruct rq as [rq|rq|rnd sid0|rq]; cbn [handle].
  - destruct (login_tables db rq) as [Es _]. exists s.
    unfold get_session in *. rewrite Es. split; [exact Hs|].
    unfold kept; repeat split; auto.
  - destruct (create_session_tables db rq) as [[Es|[owner Es]] _]; exists s;
      unfold get_session in *; rewrite Es.
    + split; [exact Hs|]. unfold kept; repeat split; auto.
    + split; [now apply find_app_some|]. unfold kept; repeat split; auto.
  - destruct (@end_session_session_row rnd sid0 db sid s Hs)
      as [s' [Hs' [_ [H2 [_ [H4 [H5 [H6 _]]]]]]]].
    exists s'. unfold kept; repeat split; auto.
  - destruct (@submit_restaurant_session_row rq db sid s Hs)
      as [s' [Hs' [Heq _]]].
    exists s'. split; [exact Hs'|]. rewrite Heq. unfold kept. cbn.
    repeat split; auto.
Qed.

Lemma run_session_row (rqs : list request) (db : Database) (sid : Z)
    (s : SessionRow) :
  get_session db sid = Some s ->
  exists s', get_session (run rqs db) sid = Some s' /\ kept s s'.
Proof.
  revert db s. induction rqs as [|rq rqs IH]; intros db s Hs.
  - exists s. split; [exact Hs|]. unfold kept; repeat split; auto.
  - cbn [run fold_left].
    destruct (@handle_session_row rq db sid s Hs) as [s1 [Hs1 [K1 [K2 [K3 K4]]]]].
    destruct (IH (handle rq db) s1 Hs1) as [s2 [Hs2 [L1 [L2 [L3 L4]]]]].
    exists s2. split; [exact Hs2|]. unfold kept.
    repeat split; try congruence.
    destruct L4 as [L4|L4]; [|now right].
    destruct K4 as [K4|K4]; [left|right]; congruence.
Qed.

Lemma run_session_columns (rqs : list request) (db : Database) (sid : Z)
    (s : SessionRow) :
  get_session db sid = Some s ->
  exists s',
    get_session (run rqs db) sid = Some s'
    /\ session_name s' = session_name s
    /\ expected_number_of_participants s' = expected_number_of_participants s
    /\ owner_id s' = owner_id s
    /\ (status s = "closed" -> status s' = "closed").
Proof.
  intros Hs. destruct (@run_session_row rqs db sid s Hs) as [s' [Hs' [K1 [K2 [K3 K4]]]]].
  exists s'. repeat split; try assumption.
  intros Hc. destruct K4 as [K4|K4]; congruence.
Qed.

End SessionsAlongRuns.

(** X9: sessions are never deleted and their name, expected number of
    participants and owner never change: a session found in a store is found
    with these columns in the store after any sequence of requests. *)
Theorem session_columns_fixed (rqs : list request) (db : Database) (sid : Z)
    (s : SessionRow) :
  get_session db sid = Some s ->
  exists s',
    get_session (run rqs db) sid = Some s'
    /\ session_name s' = session_name s
    /\ expected_number_of_participants s' = expected_number_of_participants s
    /\ owner_id s' = owner_id s.
Proof.
  intros Hs.
  destruct (@run_session_columns rqs db sid s Hs) as [s' [Hs' [K1 [K2 [K3 _]]]]].
  exists s'. auto.
Qed.

Lemma session_columns_fixed_witness :
  get_session store_open 1 = Some (mkSession 1 "Dinner" 0 2 1 "open" None)
  /\ exists s',
       get_session (run [EndSession 0 1; dinner] store_open) 1 = Some s'
       /\ session_name s' = "Dinner"
       /\ expected_number_of_participants s' = 2
       /\ owner_id s' = 1.
Proof.
  split; [reflexivity|].
  apply (session_columns_fixed [EndSession 0 1; dinner] store_open 1
           (s := mkSession 1 "Dinner" 0 2 1 "open" None)).
  reflexivity.
Defined.

(** X10: closed is terminal: no request reopens a session; a session that
    is closed in a store is closed in the store after any sequence of
    requests, further closes and submissions to it included. *)
Theorem closed_stays_closed (rqs : list request) (db : Database) (sid : Z)
    (s : SessionRow) :
  get_session db sid = Some s ->
  status s = "closed" ->
  exists s', get_session (run rqs db) sid = Some s' /\ status s' = "closed".
Proof.
  intros Hs Hc.
  destruct (@run_session_columns rqs db sid s Hs) as [s' [Hs' [_ [_ [_ K]]]]].
  exists s'. auto.
Qed.

Lemma closed_stays_closed_witness :
  get_session store_closed 1
  = Some (mkSession 1 "Dinner" 100 2 1 "closed" (Some "Pizza Place"))
  /\ exists s',
       get_session
         (run [SubmitRestaurant (mkRestaurantSubmission 1 "Noodle Hut" "bob");
               EndSession 4 1] store_closed) 1 = Some s'
       /\ status s' = "closed".
Proof.
  split; [reflexivity|].
  apply (closed_stays_closed
           [SubmitRestaurant (mkRestaurantSubmission 1 "Noodle Hut" "bob");
            EndSession 4 1] store_closed 1
           (s := mkSession 1 "Dinner" 100 2 1 "closed" (Some "Pizza Place")));
    reflexivity.
Defined.

(** X11: in every reachable store a session's status is open or closed,
    and a stored result belongs to a closed session and is the name of the
    restaurant of one of that session's submissions; an open session has no
    result. *)
Theorem result_closed_and_submitted (db : Database) (s : SessionRow) :
  reachable db ->
  In s (sessions_table db) ->
  (status s = "open" \/ status s = "closed")
  /\ (status s = "open" -> result s = None)
  /\ (forall n, result s = Some n ->
        status s = "closed"
        /\ exists x r,
             In x (session_submissions db (session_id s))
             /\ get_restaurant db (usr_restaurant_id x) = Some r
             /\ restaurant_name r = n).
Proof.
  intros Hreach Hin. apply reachable_consistent in Hreach.
  pose proof (cs_result Hreach s Hin) as Hres.
  split; [exact (cs_status Hreach s Hin)|]. split; [|exact Hres].
  intros Hopen. destruct (result s) as [n|] eqn:Hn; [|reflexivity].
  destruct (Hres n Hn) as [Hc _]. rewrite Hopen in Hc. discriminate.
Qed.

Lemma result_closed_and_submitted_witness :
  reachable store_closed
  /\ In (mkSession 1 "Dinner" 100 2 1 "closed" (Some "Pizza Place"))
        (sessions_table store_closed)
  /\ ("closed" = "open" \/ "closed" = "closed")
  /\ ("closed" = "open" -> Some "Pizza Place" = None)
  /\ (forall n, Some "Pizza Place" = Some n ->
        "closed" = "closed"
        /\ exists x r,
             In x (session_submissions store_closed 1)
             /\ get_restaurant store_closed (usr_restaurant_id x) = Some r
             /\ restaurant_name r = n).
Proof.
  assert (Hreach : reachable store_closed)
    by (do 2 apply reachable_run; apply (reachable_run [dinner]); constructor).
  split; [exact Hreach|]. split; [left; reflexivity|].
  apply (@result_closed_and_submitted store_closed
           (mkSession 1 "Dinner" 100 2 1 "closed" (Some "Pizza Place"))
           Hreach).
  left. reflexivity.
Defined.

(** X12: every submission of a session can win: on a reachable store, for
    each submission recorded for an existing session there is a draw for
    which the close succeeds with the name of that submission's restaurant. *)
Theorem end_session_can_pick_each (sid : Z) (db : Database) (s : SessionRow)
    (x : SubmissionRow) :
  reachable db ->
  get_session db sid = Some s ->
  In x (session_submissions db sid) ->
  exists rnd r,
    get_restaurant db (usr_restaurant_id x) = Some r
    /\ snd (end_session rnd sid db)
       = inr (mkEndSessionReply "Session ended successfully"
                (restaurant_name r)).
Proof.
  intros Hreach Hs Hin. apply reachable_well_formed in Hreach.
  destruct (session_submissions db sid) as [|x0 l] eqn:Hx; [contradiction|].
  destruct (In_nth _ _ x0 Hin) as [i [Hi Hnth]].
  assert (Hd : drawn i x0 l = x).
  { unfold drawn. now rewrite Nat.mod_small. }
  assert (Hsub : In x (user_session_restaurants_table db)).
  { rewrite <- Hx in Hin. apply filter_In in Hin. tauto. }
  apply (wf_submission_restaurant Hreach) in Hsub.
  apply find_key_exists in Hsub. destruct Hsub as [r Hr].
  fold (get_restaurant db (usr_restaurant_id x)) in Hr.
  exists i, r. split; [exact Hr|].
  rewrite <- Hd in Hr. now rewrite (end_session_drawn i _ _ Hs Hx Hr).
Qed.

Lemma end_session_can_pick_each_witness :
  reachable store_voted
  /\ get_session store_voted 1
     = Some (mkSession 1 "Dinner" 100 2 1 "open" None)
  /\ In (mkSubmission 2 2 1 2) (session_submissions store_voted 1)
  /\ exists rnd r,
       get_restaurant store_voted 2 = Some r
       /\ snd (end_session rnd 1 store_voted)
          = inr (mkEndSessionReply "Session ended successfully"
                   (restaurant_name r)).
Proof.
  assert (Hreach : reachable store_voted)
    by (apply reachable_run; apply (reachable_run [dinner]); constructor).
  split; [exact Hreach|]. split; [reflexivity|].
  split; [right; left; reflexivity|].
  apply (@end_session_can_pick_each 1 store_voted
           (mkSession 1 "Dinner" 100 2 1 "open" None)
           (mkSubmission 2 2 1 2) Hreach).
  - reflexivity.
  - right. left. reflexivity.
Defined.

(** ** Submissions: failure, the catalog and the progress *)

Section SubmissionFacts.

Lemma py_round_div_mono (a a' b : Z) :
  0 < b -> a <= a' -> py_round_div a b <= py_round_div a' b.
Proof.
  intros Hb Hle. unfold py_round_div.
  pose proof (Z.div_mod a b ltac:(lia)) as Hdm.
  pose proof (Z.div_mod a' b ltac:(lia)) as Hdm'.
  pose proof (Z.mod_pos_bound a b Hb) as Hr.
  pose proof (Z.mod_pos_bound a' b Hb) as Hr'.
  pose proof (Z.div_le_mono a a' b Hb Hle) as Hq.
  assert (Hcase : a / b < a' / b \/ a / b = a' / b) by lia.
  destruct Hcase as [Hlt|Heq].
  - destruct (2 * (a mod b) <? b), (b <? 2 * (a mod b)), (Z.even (a / b)),
      (2 * (a' mod b) <? b), (b <? 2 * (a' mod b)), (Z.even (a' / b)); lia.
  - rewrite <- Heq in *.
    assert (Hrr : a mod b <= a' mod b) by lia.
    destruct (2 * (a mod b) <? b) eqn:H1, (b <? 2 * (a mod b)) eqn:H2,
      (2 * (a' mod b) <? b) eqn:H3, (b <? 2 * (a' mod b)) eqn:H4,
      (Z.even (a / b));
      rewrite ?Z.ltb_lt, ?Z.ltb_ge in *; lia.
Qed.

Lemma progress_of_mono (n m : nat) (participants : Z) :
  (n <= m)%nat -> progress_of n participants <= progress_of m participants.
Proof.
  intros Hle. unfold progress_of.
  destruct (participants >? 0) eqn:Hp; [|lia].
  apply Z.gtb_lt in Hp. apply py_round_div_mono; lia.
Qed.

(** The session row an accepted submission leaves. *)
Lemma submit_accepted_row (rq : RestaurantSubmission) (db db' : Database)
    (reply : SubmitReply) (sess : SessionRow) :
  submit_restaurant rq db = (db', inr reply) ->
  get_session db (sub_session_id rq) = Some sess ->
  get_session db' (sub_session_id rq)
  = Some (with_progress
            (progress_of
               (S (List.length (session_submissions db (sub_session_id rq))))
               (expected_number_of_participants sess))
            sess).
Proof.
  intros Hsub Hsess.
  destruct (submit_accepted_store _ _ Hsub)
    as [sess' [u [db1 [rid [Hsess' [Hu [Hw ->]]]]]]].
  assert (sess' = sess) as -> by congruence.
  destruct (with_restaurant_tables _ _ Hw) as [Es [_ Ex]].
  set (sid := sub_session_id rq) in *.
  assert (Hlen : List.length
                   (session_submissions (recorded (user_id u) sid rid db1) sid)
                 = S (List.length (session_submissions db sid))).
  { rewrite session_submissions_recorded, Z.eqb_refl, length_app.
    cbn [List.length]. unfold session_submissions. rewrite Ex. lia. }
  rewrite Hlen. unfold store_progress. apply get_session_update; [reflexivity|].
  unfold get_session in *.
  cbn [recorded insert_submission set_submissions fst sessions_table].
  now rewrite Es.
Qed.

End SubmissionFacts.

(** X13: a submission that fails has written nothing, and it fails in one
    of three ways, the session id being looked at first: with OverflowError
    when the id is outside the signed 64-bit range, with the 404 "Session not
    found" when an id of that range is unknown, whoever submits, and with the
    404 "User not found" when the session exists and the name is unknown. *)
Theorem submit_restaurant_failure (rq : RestaurantSubmission) (db : Database)
    (e : exn) :
  snd (submit_restaurant rq db) = inl e ->
  fst (submit_restaurant rq db) = db
  /\ ((get_session db (sub_session_id rq) = None
       /\ int64 (sub_session_id rq) = false
       /\ e = OverflowError)
      \/ (get_session db (sub_session_id rq) = None
          /\ int64 (sub_session_id rq) = true
          /\ e = HTTPException 404 "Session not found")
      \/ (get_session db (sub_session_id rq) <> None
          /\ get_user db (sub_user_name rq) = None
          /\ e = HTTPException 404 "User not found")).
Proof.
  destruct (get_session db (sub_session_id rq)) as [sess|] eqn:Hsess.
  - destruct (get_user db (sub_user_name rq)) as [u|] eqn:Hu.
    + rewrite (submit_accepted _ _ Hsess Hu).
      destruct (with_restaurant _ _). discriminate.
    + rewrite (submit_unknown_user _ _ Hsess Hu). cbn [fst snd].
      intros [= <-]. split; [reflexivity|]. right. right.
      repeat split. discriminate.
  - rewrite submit_unknown_session by assumption. cbn [fst snd].
    intros [= <-]. split; [reflexivity|].
    destruct (int64 (sub_session_id rq)); [right|]; left; repeat split.
Qed.

Lemma submit_restaurant_failure_witness :
  snd (submit_restaurant
         (mkRestaurantSubmission 9223372036854775808 "Pizza Place" "carol")
         store_voted)
  = inl OverflowError
  /\ fst (submit_restaurant
            (mkRestaurantSubmission 9223372036854775808 "Pizza Place" "carol")
            store_voted) = store_voted
  /\ ((get_session store_voted 9223372036854775808 = None
       /\ int64 9223372036854775808 = false
       /\ OverflowError = OverflowError)
      \/ (get_session store_voted 9223372036854775808 = None
          /\ int64 9223372036854775808 = true
          /\ OverflowError = HTTPException 404 "Session not found")
      \/ (get_session store_voted 9223372036854775808 <> None
          /\ get_user store_voted "carol" = None
          /\ OverflowError = HTTPException 404 "User not found")).
Proof.
  split; [reflexivity|].
  apply (@submit_restaurant_failure
           (mkRestaurantSubmission 9223372036854775808 "Pizza Place" "carol")
           store_voted OverflowError).
  reflexivity.
Defined.

(** X14: restaurants are shared by name: after an accepted submission the
    submitted name resolves to a restaurant row, and the one submission row
    added refers to it, to the session and to the submitter; a name already
    stored adds no restaurant, a new name adds exactly one row. *)
Theorem submit_restaurant_catalog (rq : RestaurantSubmission)
    (db db' : Database) (reply : SubmitReply) :
  submit_restaurant rq db = (db', inr reply) ->
  exists u r x,
    get_user db (sub_user_name rq) = Some u
    /\ get_restaurant_by_name db' (sub_restaurant_name rq) = Some r
    /\ user_session_restaurants_table db'
       = user_session_restaurants_table db ++ [x]
    /\ usr_user_id x = user_id u
    /\ usr_session_id x = sub_session_id rq
    /\ usr_restaurant_id x = restaurant_id r
    /\ (forall r0, get_restaurant_by_name db (sub_restaurant_name rq) = Some r0 ->
                   r = r0 /\ restaurants_table db' = restaurants_table db)
    /\ (get_restaurant_by_name db (sub_restaurant_name rq) = None ->
        restaurants_table db' = restaurants_table db ++ [r]).
Proof.
  intros Hsub.
  destruct (submit_accepted_store _ _ Hsub)
    as [sess [u [db1 [rid [Hsess [Hu [Hw ->]]]]]]].
  set (i := next_rowid (map usr_id (user_session_restaurants_table db1))).
  destruct (with_restaurant_cases (sub_restaurant_name rq) db)
    as [[r [Hr Heq]]|[Hr Heq]]; rewrite Heq in Hw; injection Hw as <- <-.
  - exists u, r, (mkSubmission i (user_id u) (sub_session_id rq)
                               (restaurant_id r)).
    split; [exact Hu|]. split; [exact Hr|].
    do 4 (split; [reflexivity|]). split.
    + intros r0 Hr0. split; [congruence|reflexivity].
    + congruence.
  - set (rid := next_rowid (map restaurant_id (restaurants_table db))) in *.
    exists u, (mkRestaurant rid None (sub_restaurant_name rq)),
           (mkSubmission i (user_id u) (sub_session_id rq) rid).
    split; [exact Hu|]. split.
    + unfold get_restaurant_by_name in *. cbn.
      rewrite find_app_none by assumption.
      cbn [find restaurant_name]. now rewrite String.eqb_refl.
    + do 4 (split; [reflexivity|]). split.
      * congruence.
      * reflexivity.
Qed.

Lemma submit_restaurant_catalog_witness :
  snd (submit_restaurant (mkRestaurantSubmission 1 "Pizza Place" "bob")
         store_voted)
  = inr (mkSubmitReply "Restaurant submitted successfully")
  /\ exists u r x,
       get_user store_voted "bob" = Some u
       /\ get_restaurant_by_name
            (fst (submit_restaurant
                    (mkRestaurantSubmission 1 "Pizza Place" "bob") store_voted))
            "Pizza Place" = Some r
       /\ user_session_restaurants_table
            (fst (submit_restaurant
                    (mkRestaurantSubmission 1 "Pizza Place" "bob") store_voted))
          = user_session_restaurants_table store_voted ++ [x]
       /\ usr_user_id x = user_id u
       /\ usr_session_id x = 1
       /\ usr_restaurant_id x = restaurant_id r
       /\ (forall r0, get_restaurant_by_name store_voted "Pizza Place" = Some r0 ->
                      r = r0
                      /\ restaurants_table
                           (fst (submit_restaurant
                                   (mkRestaurantSubmission 1 "Pizza Place" "bob")
                                   store_voted))
                         = restaurants_table store_voted)
       /\ (get_restaurant_by_name store_voted "Pizza Place" = None ->
           restaurants_table
             (fst (submit_restaurant
                     (mkRestaurantSubmission 1 "Pizza Place" "bob") store_voted))
           = restaurants_table store_voted ++ [r]).
Proof.
  split; [reflexivity|].
  apply (@submit_restaurant_catalog
           (mkRestaurantSubmission 1 "Pizza Place" "bob") store_voted
           (fst (submit_restaurant
                   (mkRestaurantSubmission 1 "Pizza Place" "bob") store_voted))
           (mkSubmitReply "Restaurant submitted successfully")).
  reflexivity.
Defined.

(** X15: in every reachable store no two restaurants share a name or an
    id. *)
Theorem restaurants_unique (db : Database) :
  reachable db ->
  NoDup (map restaurant_name (restaurants_table db))
  /\ NoDup (map restaurant_id (restaurants_table db)).
Proof.
  intros Hreach. split.
  - exact (cs_restaurant_names (reachable_consistent Hreach)).
  - exact (wf_restaurant_ids (reachable_well_formed Hreach)).
Qed.

Lemma restaurants_unique_witness :
  reachable store_voted
  /\ NoDup (map restaurant_name (restaurants_table store_voted))
  /\ NoDup (map restaurant_id (restaurants_table store_voted)).
Proof.
  assert (Hreach : reachable store_voted)
    by (apply reachable_run; apply (reachable_run [dinner]); constructor).
  split; [exact Hreach|]. exact (restaurants_unique Hreach).
Defined.

(** X16: on a reachable store an accepted submission never lowers the
    progress of its session. *)
Theorem submit_restaurant_progress_grows (rq : RestaurantSubmission)
    (db db' : Database) (reply : SubmitReply) (s s' : SessionRow) :
  reachable db ->
  submit_restaurant rq db = (db', inr reply) ->
  get_session db (sub_session_id rq) = Some s ->
  get_session db' (sub_session_id rq) = Some s' ->
  progress s <= progress s'.
Proof.
  intros Hreach Hsub Hs Hs'. apply reachable_well_formed in Hreach.
  rewrite (submit_accepted_row _ _ Hsub Hs) in Hs'. injection Hs' as <-.
  cbn [with_progress progress].
  pose proof Hs as Hin. apply find_key_in in Hin. destruct Hin as [Hin Hid].
  rewrite (wf_progress Hreach s Hin), Hid.
  apply progress_of_mono. lia.
Qed.

Lemma submit_restaurant_progress_grows_witness :
  reachable store_open
  /\ get_session store_open 1 = Some (mkSession 1 "Dinner" 0 2 1 "open" None)
  /\ progress (mkSession 1 "Dinner" 0 2 1 "open" None)
     <= progress (mkSession 1 "Dinner" 50 2 1 "open" None).
Proof.
  assert (Hreach : reachable store_open) by (apply reachable_run; constructor).
  split; [exact Hreach|]. split; [reflexivity|].
  apply (@submit_restaurant_progress_grows
           (mkRestaurantSubmission 1 "Pizza Place" "alice") store_open
           (fst (submit_restaurant
                   (mkRestaurantSubmission 1 "Pizza Place" "alice") store_open))
           (mkSubmitReply "Restaurant submitted successfully")
           (mkSession 1 "Dinner" 0 2 1 "open" None)
           (mkSession 1 "Dinner" 50 2 1 "open" None) Hreach);
    reflexivity.
Defined.

(** X17: in every reachable store the progress of a session that expects
    [E > 0] participants is a nearest integer to the percentage
    [100 * n / E] of its [n] recorded submissions, and it is exactly 100 when
    [n = E]. *)
Theorem progress_is_nearest_percentage (db : Database) (s : SessionRow) :
  reachable db ->
  In s (sessions_table db) ->
  0 < expected_number_of_participants s ->
  Z.abs (2 * (expected_number_of_participants s * progress s)
         - 2 * (Z.of_nat (List.length (session_submissions db (session_id s)))
                * 100))
  <= expected_number_of_participants s
  /\ (Z.of_nat (List.length (session_submissions db (session_id s)))
      = expected_number_of_participants s ->
      progress s = 100).
Proof.
  intros Hreach Hin HE. apply reachable_well_formed in Hreach.
  pose proof (wf_progress Hreach s Hin) as Hp.
  unfold progress_of in Hp.
  assert (Hgt : (expected_number_of_participants s >? 0) = true)
    by now apply Z.gtb_lt.
  rewrite Hgt in Hp.
  pose proof (py_round_div_nearest
                (Z.of_nat (List.length (session_submissions db (session_id s)))
                 * 100) HE) as Hnear.
  rewrite <- Hp in Hnear. split; [exact Hnear|].
  intros Hfull. rewrite Hfull in Hnear. nia.
Qed.

Lemma progress_is_nearest_percentage_witness :
  reachable store_voted
  /\ In (mkSession 1 "Dinner" 100 2 1 "open" None) (sessions_table store_voted)
  /\ 0 < 2
  /\ Z.abs (2 * (2 * 100)
            - 2 * (Z.of_nat (List.length (session_submissions store_voted 1))
                   * 100)) <= 2
  /\ (Z.of_nat (List.length (session_submissions store_voted 1)) = 2 ->
      100 = 100).
Proof.
  assert (Hreach : reachable store_voted)
    by (apply reachable_run; apply (reachable_run [dinner]); constructor).
  split; [exact Hreach|]. split; [left; reflexivity|]. split; [lia|].
  apply (@progress_is_nearest_percentage store_voted
           (mkSession 1 "Dinner" 100 2 1 "open" None) Hreach).
  - left. reflexivity.
  - cbn. lia.
Defined.

(** X18: with several submissions of one participant to a session the
    check reports the earliest: on a reachable store, for a known participant
    it replies submitted=true with the name of the restaurant of the first
    submission recorded for that participant and session. *)
Theorem check_submission_reports_first (sid : Z) (uname : string)
    (db : Database) (u : UserRow) (x : SubmissionRow)
    (l : list SubmissionRow) :
  reachable db ->
  get_user db uname = Some u ->
  user_submissions db sid (user_id u) = x :: l ->
  exists r,
    get_restaurant db (usr_restaurant_id x) = Some r
    /\ check_submission sid uname db
       = (db, inr (mkCheckSubmissionReply true (Some (restaurant_name r)))).
Proof.
  intros Hreach Hu Hx. apply reachable_well_formed in Hreach.
  assert (Hin : In x (user_session_restaurants_table db)
                /\ usr_session_id x = sid).
  { assert (Hin : In x (x :: l)) by now left.
    rewrite <- Hx in Hin. apply filter_In in Hin. destruct Hin as [Hin Hk].
    apply andb_prop in Hk. destruct Hk as [Hk _]. apply Z.eqb_eq in Hk. tauto. }
  destruct Hin as [Hin Hsid].
  assert (Hfit : session_id_fits db sid = true).
  { apply session_id_fits_iff. right. rewrite <- Hsid.
    now apply (wf_submission_session Hreach). }
  apply (wf_submission_restaurant Hreach) in Hin.
  apply find_key_exists in Hin. destruct Hin as [r Hr].
  exists r. split; [exact Hr|].
  exact (check_submission_found sid uname db Hu Hfit Hx Hr).
Qed.

Lemma check_submission_reports_first_witness :
  reachable store_twice
  /\ get_user store_twice "alice" = Some (mkUser 1 "alice")
  /\ user_submissions store_twice 1 1
     = [mkSubmission 1 1 1 1; mkSubmission 2 1 1 2]
  /\ exists r,
       get_restaurant store_twice 1 = Some r
       /\ check_submission 1 "alice" store_twice
          = (store_twice,
             inr (mkCheckSubmissionReply true (Some (restaurant_name r)))).
Proof.
  assert (Hreach : reachable store_twice) by (apply reachable_run; constructor).
  split; [exact Hreach|]. split; [reflexivity|]. split; [reflexivity|].
  apply (@check_submission_reports_first 1 "alice" store_twice
           (mkUser 1 "alice") (mkSubmission 1 1 1 1) [mkSubmission 2 1 1 2]
           Hreach); reflexivity.
Defined.

(** ** The joined views: [get_session_owner] and [get_session_submissions] *)

Section Joins.

Lemma join_cons {A B} (x : A) (a : list A) (b : list B) (on : A -> B -> bool) :
  join (x :: a) b on = map (pair x) (filter (on x) b) ++ join a b on.
Proof. reflexivity. Qed.

Lemma join_app {A B} (a1 a2 : list A) (b : list B) (on : A -> B -> bool) :
  join (a1 ++ a2) b on = join a1 b on ++ join a2 b on.
Proof. unfold join. apply flat_map_app. Qed.

Variables (R : Type) (key : R -> Z).

Lemma filter_key_nil (l : list R) (k : Z) :
  ~ In k (map key l) -> filter (fun y => k =? key y) l = [].
Proof.
  induction l as [|a l IH]; cbn [filter map]; [reflexivity|].
  intros Hnot. destruct (k =? key a) eqn:Hk.
  - apply Z.eqb_eq in Hk. exfalso. apply Hnot. left. congruence.
  - apply IH. intros Hin. apply Hnot. now right.
Qed.

(** Under a unique key a join condition on that key selects one row, the
    one a lookup by the key finds. *)
Lemma filter_key_single (l : list R) (k : Z) :
  NoDup (map key l) -> In k (map key l) ->
  exists r, filter (fun y => k =? key y) l = [r]
            /\ find (fun y => key y =? k) l = Some r.
Proof.
  induction l as [|a l IH]; cbn [filter find map]; [intros _ []|].
  intros Hnd Hin. inversion Hnd as [|? ? Hnotin Hnd']; subst.
  rewrite (Z.eqb_sym (key a) k).
  destruct (k =? key a) eqn:Hk.
  - apply Z.eqb_eq in Hk. exists a. split; [|reflexivity].
    rewrite filter_key_nil; [reflexivity|congruence].
  - apply Z.eqb_neq in Hk. apply IH; [assumption|].
    destruct Hin as [Hin|Hin]; [congruence|assumption].
Qed.

Lemma map_Some_inj {A} (l1 l2 : list A) :
  map Some l1 = map Some l2 -> l1 = l2.
Proof.
  revert l2. induction l1 as [|a l1 IH]; intros [|b l2]; cbn;
    try discriminate; [reflexivity|].
  intros [= -> H]. f_equal. now apply IH.
Qed.

End Joins.

Section OwnerView.

Variable db : Database.

Lemma find_sessions_with_owner (sid : Z) :
  NoDup (map user_id (users_table db)) ->
  (forall s, In s (sessions_table db) ->
             In (owner_id s) (map user_id (users_table db))) ->
  find (fun row => session_id (fst row) =? sid) (sessions_with_owner db)
  = match get_session db sid with
    | Some s => option_map (pair s) (get_user_by_id db (owner_id s))
    | None => None
    end.
Proof.
  intros Hnd. unfold sessions_with_owner, get_session, get_user_by_id.
  generalize (sessions_table db) as ss.
  induction ss as [|a ss IH]; intros Hown; [reflexivity|].
  rewrite join_cons.
  destruct (@filter_key_single UserRow user_id (users_table db) (owner_id a)
              Hnd (Hown a (or_introl eq_refl))) as [u [Hf Hu]].
  rewrite Hf. cbn [map app find fst].
  destruct (session_id a =? sid).
  - rewrite Hu. reflexivity.
  - apply IH. intros s Hs. apply Hown. now right.
Qed.

Lemma find_sessions_with_owner_none (sid : Z) :
  get_session db sid = None ->
  find (fun row => session_id (fst row) =? sid) (sessions_with_owner db) = None.
Proof.
  unfold sessions_with_owner, get_session.
  generalize (sessions_table db) as ss.
  induction ss as [|a ss IH]; [reflexivity|].
  cbn [find]. rewrite join_cons.
  destruct (session_id a =? sid) eqn:Hk; [discriminate|].
  intros Hs. rewrite find_app_none; [now apply IH|].
  induction (filter _ (users_table db)) as [|u us IHu]; [reflexivity|].
  cbn [map find fst]. now rewrite Hk.
Qed.

End OwnerView.

Lemma get_session_owner_row (sid : Z) (db : Database) (s : SessionRow) :
  consistent db ->
  get_session db sid = Some s ->
  exists u,
    get_user_by_id db (owner_id s) = Some u
    /\ Api.get_session_owner sid db
       = (db, inr (mkSessionWithOwner s (user_name u))).
Proof.
  intros Hc Hs.
  pose proof (find_sessions_with_owner db sid (cs_user_ids Hc) (cs_owner Hc))
    as Hf.
  rewrite Hs in Hf.
  assert (Hin : In s (sessions_table db))
    by (apply find_key_in in Hs; tauto).
  destruct (@find_key_exists UserRow user_id (users_table db) (owner_id s)
              (cs_owner Hc s Hin)) as [u Hu].
  fold (get_user_by_id db (owner_id s)) in Hu. rewrite Hu in Hf.
  exists u. split; [exact Hu|].
  unfold Api.get_session_owner.
  rewrite bind_session_id_fits by exact (session_id_fits_found _ _ Hs).
  step_handler. now rewrite Hf.
Qed.

(** X19: on a reachable store [get_session_owner] succeeds for every
    existing session: it replies with the session's row and the name of the
    participant whose id is the session's owner id, and writes nothing. *)
Theorem get_session_owner_found (sid : Z) (db : Database) (s : SessionRow) :
  reachable db ->
  get_session db sid = Some s ->
  exists u,
    get_user_by_id db (owner_id s) = Some u
    /\ Api.get_session_owner sid db
       = (db, inr (mkSessionWithOwner s (user_name u))).
Proof.
  intros Hreach. apply get_session_owner_row. now apply reachable_consistent.
Qed.

Lemma get_session_owner_found_witness :
  reachable store_voted
  /\ get_session store_voted 1
     = Some (mkSession 1 "Dinner" 100 2 1 "open" None)
  /\ exists u,
       get_user_by_id store_voted 1 = Some u
       /\ Api.get_session_owner 1 store_voted
          = (store_voted,
             inr (mkSessionWithOwner (mkSession 1 "Dinner" 100 2 1 "open" None)
                    (user_name u))).
Proof.
  assert (Hreach : reachable store_voted)
    by (apply reachable_run; apply (reachable_run [dinner]); constructor).
  split; [exact Hreach|]. split; [reflexivity|].
  apply (@get_session_owner_found 1 store_voted
           (mkSession 1 "Dinner" 100 2 1 "open" None) Hreach).
  reflexivity.
Defined.

(** X20: for a session id of the signed 64-bit range that resolves to no
    session, [get_session_owner] raises the 404 "Session not found" and
    writes nothing. *)
Theorem get_session_owner_not_found (sid : Z) (db : Database) :
  int64 sid = true ->
  get_session db sid = None ->
  Api.get_session_owner sid db
  = (db, inl (HTTPException 404 "Session not found")).
Proof.
  intros Hfit Hs. unfold Api.get_session_owner.
  rewrite bind_session_id_fits by now apply session_id_fits_int64.
  step_handler. now rewrite find_sessions_with_owner_none.
Qed.

Lemma get_session_owner_not_found_witness :
  int64 3 = true
  /\ get_session store_voted 3 = None
  /\ Api.get_session_owner 3 store_voted
     = (store_voted, inl (HTTPException 404 "Session not found")).
Proof.
  split; [reflexivity|]. split; [reflexivity|].
  apply (@get_session_owner_not_found 3 store_voted); reflexivity.
Defined.

Section SubmissionListing.

Variable db : Database.

Hypothesis user_ids : NoDup (map user_id (users_table db)).
Hypothesis restaurant_ids : NoDup (map restaurant_id (restaurants_table db)).

(** The rows of the double join over a list of submissions whose
    participant and restaurant exist: one row per submission, in order. *)
Lemma listing_of_submissions (sid : Z) (xs : list SubmissionRow) :
  (forall x, In x xs ->
     In (usr_user_id x) (map user_id (users_table db))
     /\ In (usr_restaurant_id x) (map restaurant_id (restaurants_table db))) ->
  map Some
    (map (fun row => mkSubmissionEntry (user_name (snd (fst row)))
                                       (restaurant_name (snd row)))
       (filter (fun row => usr_session_id (fst (fst row)) =? sid)
          (join (join xs (users_table db)
                      (fun x u => usr_user_id x =? user_id u))
                (restaurants_table db)
                (fun xu r => usr_restaurant_id (fst xu) =? restaurant_id r))))
  = map (entry_of db) (filter (fun x => usr_session_id x =? sid) xs).
Proof.
  induction xs as [|x xs IH]; intros Hx; [reflexivity|].
  destruct (Hx x (or_introl eq_refl)) as [Hu Hr].
  destruct (@filter_key_single UserRow user_id (users_table db)
              (usr_user_id x) user_ids Hu) as [u [Hfu Hgu]].
  destruct (@filter_key_single RestaurantRow restaurant_id
              (restaurants_table db) (usr_restaurant_id x) restaurant_ids Hr)
    as [r [Hfr Hgr]].
  rewrite join_cons, Hfu. cbn [map app]. rewrite join_cons. cbn [fst].
  rewrite Hfr. cbn [map app filter fst snd].
  assert (He : entry_of db x
               = Some (mkSubmissionEntry (user_name u) (restaurant_name r))).
  { unfold entry_of, get_user_by_id, get_restaurant. now rewrite Hgu, Hgr. }
  specialize (IH (fun y Hy => Hx y (or_intror Hy))).
  destruct (usr_session_id x =? sid); cbn [map]; rewrite IH; [|reflexivity].
  now rewrite He.
Qed.

End SubmissionListing.

Section ListingFacts.

Lemma get_session_submissions_entries (sid : Z) (db : Database) :
  well_formed db -> consistent db ->
  session_id_fits db sid = true ->
  exists l,
    Api.get_session_submissions sid db = (db, inr l)
    /\ map Some l = map (entry_of db) (session_submissions db sid).
Proof.
  intros Hwf Hc Hfit. eexists. split.
  - unfold Api.get_session_submissions.
    rewrite bind_session_id_fits by exact Hfit. step_handler. reflexivity.
  - unfold submissions_with_names, session_submissions.
    apply listing_of_submissions.
    + exact (cs_user_ids Hc).
    + exact (wf_restaurant_ids Hwf).
    + intros x Hx. split.
      * exact (cs_submitter Hc x Hx).
      * exact (wf_submission_restaurant Hwf x Hx).
Qed.

Lemma entry_of_extends (db db' : Database) (x : SubmissionRow)
    (e : SubmissionEntry) :
  extends db db' -> entry_of db x = Some e -> entry_of db' x = Some e.
Proof.
  intros [[us Eu] [[rs Er] _]]. unfold entry_of, get_user_by_id, get_restaurant.
  destruct (find _ (users_table db)) as [u|] eqn:Hu; [|discriminate].
  destruct (find _ (restaurants_table db)) as [r|] eqn:Hr; [|discriminate].
  intros He. rewrite Eu, Er.
  rewrite (find_app_some _ _ _ Hu), (find_app_some _ _ _ Hr). exact He.
Qed.

End ListingFacts.

(** X21: on a reachable store [get_session_submissions] for a session id
    of the signed 64-bit range succeeds and lists the session's submissions
    one entry each, in the order recorded (repeats of a participant
    included): entry by entry the name of the submitter and the name of the
    restaurant submitted. *)
Theorem get_session_submissions_lists (sid : Z) (db : Database) :
  reachable db ->
  int64 sid = true ->
  exists l,
    Api.get_session_submissions sid db = (db, inr l)
    /\ map Some l = map (entry_of db) (session_submissions db sid)
    /\ List.length l = List.length (session_submissions db sid).
Proof.
  intros Hreach Hfit.
  destruct (@get_session_submissions_entries sid db
              (reachable_well_formed Hreach) (reachable_consistent Hreach)
              (session_id_fits_int64 db sid Hfit))
    as [l [Hl He]].
  exists l. split; [exact Hl|]. split; [exact He|].
  apply (f_equal (@List.length _)) in He. now rewrite !length_map in He.
Qed.

Lemma get_session_submissions_lists_witness :
  reachable store_twice
  /\ int64 1 = true
  /\ exists l,
       Api.get_session_submissions 1 store_twice = (store_twice, inr l)
       /\ map Some l
          = map (entry_of store_twice) (session_submissions store_twice 1)
       /\ List.length l = List.length (session_submissions store_twice 1).
Proof.
  assert (Hreach : reachable store_twice) by (apply reachable_run; constructor).
  split; [exact Hreach|]. split; [reflexivity|].
  exact (@get_session_submissions_lists 1 store_twice Hreach eq_refl).
Defined.

(** X22: [get_session_submissions] does not look the session up: on a
    reachable store, for a session id of the signed 64-bit range that
    resolves to no session it succeeds with the empty list instead of a
    404. *)
Theorem get_session_submissions_unknown_session (sid : Z) (db : Database) :
  reachable db ->
  int64 sid = true ->
  get_session db sid = None ->
  Api.get_session_submissions sid db = (db, inr []).
Proof.
  intros Hreach Hfit Hs.
  destruct (@get_session_submissions_entries sid db
              (reachable_well_formed Hreach) (reachable_consistent Hreach)
              (session_id_fits_int64 db sid Hfit))
    as [l [Hl He]].
  assert (Hnil : session_submissions db sid = []).
  { unfold session_submissions.
    destruct (filter _ _) as [|x xs] eqn:Hf; [reflexivity|].
    assert (Hin : In x (x :: xs)) by now left.
    rewrite <- Hf in Hin. apply filter_In in Hin. destruct Hin as [Hin Hk].
    apply Z.eqb_eq in Hk.
    apply (wf_submission_session (reachable_well_formed Hreach)) in Hin.
    rewrite Hk in Hin. unfold get_session in Hs.
    apply find_key_none in Hs. contradiction. }
  rewrite Hnil in He. destruct l; [exact Hl|discriminate].
Qed.

Lemma get_session_submissions_unknown_session_witness :
  reachable store_voted
  /\ int64 5 = true
  /\ get_session store_voted 5 = None
  /\ Api.get_session_submissions 5 store_voted = (store_voted, inr []).
Proof.
  assert (Hreach : reachable store_voted)
    by (apply reachable_run; apply (reachable_run [dinner]); constructor).
  split; [exact Hreach|]. split; [reflexivity|]. split; [reflexivity|].
  apply (@get_session_submissions_unknown_session 5 store_voted Hreach);
    reflexivity.
Defined.

(** X23: an accepted submission shows up in the listing: on a reachable
    store, the listing of the session after the submission is the listing
    before it followed by one entry with the submitter's name and the
    submitted restaurant name. *)
Theorem submit_restaurant_listed (rq : RestaurantSubmission)
    (db db' : Database) (reply : SubmitReply) :
  reachable db ->
  submit_restaurant rq db = (db', inr reply) ->
  exists l,
    Api.get_session_submissions (sub_session_id rq) db = (db, inr l)
    /\ Api.get_session_submissions (sub_session_id rq) db'
       = (db', inr (l ++ [mkSubmissionEntry (sub_user_name rq)
                            (sub_restaurant_name rq)])).
Proof.
  intros Hreach Hsub.
  assert (Hreach' : reachable db').
  { replace db' with (handle (SubmitRestaurant rq) db);
      [now constructor|]. cbn [handle]. now rewrite Hsub. }
  assert (Hext : extends db db').
  { replace db' with (fst (submit_restaurant rq db)) by now rewrite Hsub.
    apply submit_restaurant_extends. }
  pose proof (reachable_well_formed Hreach) as Hwf.
  pose proof (reachable_consistent Hreach) as Hc.
  assert (Hfit : session_id_fits db (sub_session_id rq) = true).
  { destruct (submit_accepted_store _ _ Hsub) as [sess [_ [_ [_ [Hsess _]]]]].
    exact (session_id_fits_found _ _ Hsess). }
  assert (Hfit' : session_id_fits db' (sub_session_id rq) = true).
  { replace db' with (handle (SubmitRestaurant rq) db)
      by (cbn [handle]; now rewrite Hsub).
    now apply handle_session_id_fits. }
  destruct (@get_session_submissions_entries (sub_session_id rq) db
              Hwf Hc Hfit) as [l [Hl He]].
  destruct (@get_session_submissions_entries (sub_session_id rq) db'
              (reachable_well_formed Hreach') (reachable_consistent Hreach')
              Hfit')
    as [l' [Hl' He']].
  exists l. split; [exact Hl|]. rewrite Hl'. do 2 f_equal.
  apply map_Some_inj. rewrite He', map_app, He. cbn [map].
  destruct (submit_accepted_store _ _ Hsub)
    as [sess [u [db1 [rid [Hsess [Hu [Hw Hdb']]]]]]].
  destruct (with_restaurant_tables _ _ Hw) as [_ [Eu Ex]].
  destruct (with_restaurant_lookup _ _ (wf_restaurant_ids Hwf) Hw)
    as [r [Hr Hname]].
  set (x := mkSubmission
              (next_rowid (map usr_id (user_session_restaurants_table db1)))
              (user_id u) (sub_session_id rq) rid).
  assert (Hsubs : session_submissions db' (sub_session_id rq)
                  = session_submissions db (sub_session_id rq) ++ [x]).
  { rewrite Hdb'.
    change (session_submissions (store_progress _ _ ?d) ?k)
      with (session_submissions d k).
    rewrite session_submissions_recorded, Z.eqb_refl. f_equal.
    unfold session_submissions. now rewrite Ex. }
  rewrite Hsubs, map_app. cbn [map]. f_equal.
  - apply map_ext_in. intros x0 Hx0.
    assert (Hin : In (entry_of db x0) (map Some l))
      by (rewrite He; now apply in_map).
    apply in_map_iff in Hin. destruct Hin as [e [Hee _]]. symmetry in Hee.
    rewrite Hee. now apply entry_of_extends with (db := db).
  - f_equal. unfold entry_of, get_user_by_id, get_restaurant.
    cbn [usr_user_id usr_restaurant_id x].
    assert (Hgu : find (fun u0 => user_id u0 =? user_id u) (users_table db')
                  = Some u).
    { rewrite Hdb'. cbn [store_progress update_sessions set_sessions fst
        users_table recorded insert_submission set_submissions]. rewrite Eu.
      apply find_name_in in Hu. destruct Hu as [Hin _].
      now apply (find_key_unique user_id _ u (cs_user_ids Hc)). }
    assert (Hgr : find (fun r0 => restaurant_id r0 =? rid)
                       (restaurants_table db') = Some r).
    { rewrite Hdb'. exact Hr. }
    rewrite Hgu, Hgr. apply find_name_in in Hu. destruct Hu as [_ Hun].
    now rewrite Hun, Hname.
Qed.

Lemma submit_restaurant_listed_witness :
  reachable store_open
  /\ snd (submit_restaurant (mkRestaurantSubmission 1 "Pizza Place" "alice")
            store_open)
     = inr (mkSubmitReply "Restaurant submitted successfully")
  /\ exists l,
       Api.get_session_submissions 1 store_open = (store_open, inr l)
       /\ Api.get_session_submissions 1
            (fst (submit_restaurant
                    (mkRestaurantSubmission 1 "Pizza Place" "alice") store_open))
          = (fst (submit_restaurant
                    (mkRestaurantSubmission 1 "Pizza Place" "alice") store_open),
             inr (l ++ [mkSubmissionEntry "alice" "Pizza Place"])).
Proof.
  assert (Hreach : reachable store_open) by (apply reachable_run; constructor).
  split; [exact Hreach|]. split; [reflexivity|].
  apply (@submit_restaurant_listed
           (mkRestaurantSubmission 1 "Pizza Place" "alice") store_open
           (fst (submit_restaurant
                   (mkRestaurantSubmission 1 "Pizza Place" "alice") store_open))
           (mkSubmitReply "Restaurant submitted successfully") Hreach).
  reflexivity.
Defined.


(** X24: the listing and the owner view agree: on a reachable store
    [get_sessions] replies with all session rows, no two with the same id,
    and for each row listed [get_session_owner] under its id succeeds with
    that very row and the name of its owner. *)
Theorem get_sessions_have_owner_views (db : Database) :
  reachable db ->
  exists l,
    Api.get_sessions db = (db, inr l)
    /\ l = sessions_table db
    /\ NoDup (map session_id l)
    /\ (forall s, In s l ->
         exists u,
           get_user_by_id db (owner_id s) = Some u
           /\ Api.get_session_owner (session_id s) db
              = (db, inr (mkSessionWithOwner s (user_name u)))).
Proof.
  intros Hreach.
  pose proof (reachable_well_formed Hreach) as Hwf.
  pose proof (reachable_consistent Hreach) as Hc.
  exists (sessions_table db). split.
  - unfold Api.get_sessions, fetch_all. do 2 f_equal.
    induction (sessions_table db) as [|a l IH]; [reflexivity|].
    cbn [filter]. now rewrite IH.
  - split; [reflexivity|]. split; [exact (wf_session_ids Hwf)|].
    intros s Hin. apply get_session_owner_row; [exact Hc|].
    now apply (find_key_unique session_id _ s (wf_session_ids Hwf)).
Qed.

Lemma get_sessions_have_owner_views_witness :
  reachable store_closed
  /\ exists l,
       Api.get_sessions store_closed = (store_closed, inr l)
       /\ l = sessions_table store_closed
       /\ NoDup (map session_id l)
       /\ (forall s, In s l ->
            exists u,
              get_user_by_id store_closed (owner_id s) = Some u
              /\ Api.get_session_owner (session_id s) store_closed
                 = (store_closed, inr (mkSessionWithOwner s (user_name u)))).
Proof.
  assert (Hreach : reachable store_closed)
    by (do 2 apply reachable_run; apply (reachable_run [dinner]); constructor).
  split; [exact Hreach|].
  exact (@get_sessions_have_owner_views store_closed Hreach).
Defined.
